(** * SDC-BIDS-dMRI: the deterministic tractography lesson, verified

    The lesson material is a sequence of notebook cells that call numpy and
    dipy.  This development embeds

    - the numpy array statements of the notebook (NaN sanitization of the FA
      map, the seed-mask thresholding) over IEEE-754 binary64 values,
    - the response-function file written by the CSD episode,
    - the text of the notebook cells themselves (their Python syntax and the
      names they bind and read), and the array statements run from that text
      on a store of names and arrays,
    - the notebook file, as the JSON document it is meant to be, and the code
      blocks of the CSD episode,
    - the continuous-integration workflow,
    - the pipeline stages that live in dipy (peak extraction, seed
      generation, the stopping criterion and the streamline tracer), which
      the repository only calls: these are modelled from the specification
      and marked so.

    Definitions come first, theorems after them. *)

From Stdlib Require Import ZArith QArith Qround Lia Lqa Bool.
From Stdlib Require Import Floats.SpecFloat Strings.Ascii Strings.String.
From stdpp Require Import base option list sorting gmap strings.

Set Warnings "-register-all".
Open Scope Z_scope.


(** ** numpy arrays of float64 *)

Module Numpy.

(** A [float64] is an IEEE-754 binary64 datum: signed zero, signed
    infinity, NaN, or a finite number [(-1)^s * m * 2^e]. *)
Definition float64 : Type := spec_float.

(** Python literals used by the notebook, as their nearest binary64. *)
Definition f_0 : float64 := S754_zero false.
Definition f_1 : float64 := S754_finite false 4503599627370496 (-52).
Definition f_0_2 : float64 := S754_finite false 7205759403792794 (-55).

(** [np.isnan] and [np.isfinite] on one element. *)
Definition isnan (x : float64) : bool :=
  match x with S754_nan => true | _ => false end.

Definition isfinite (x : float64) : bool :=
  match x with
  | S754_zero _ | S754_finite _ _ _ => true
  | S754_infinity _ | S754_nan => false
  end.

(** The comparisons [x >= y] and [x < y] of IEEE-754: both are false as soon
    as one side is NaN. *)
Definition ge (x y : float64) : bool := SFleb y x.
Definition lt (x y : float64) : bool := SFltb x y.

(** A three-dimensional array, indexed [a[i, j, k]]. *)
Abbreviation ndarray3 A := (list (list (list A))).

Definition map3 {A B} (f : A → B) (a : ndarray3 A) : ndarray3 B :=
  fmap (M := list) (fmap (M := list) (fmap (M := list) f)) a.

Definition getitem3 {A} (a : ndarray3 A) (i j k : nat) : option A :=
  row ← (plane ← a !! i; plane !! j); row !! k.

(** [a[mask] = v]: every element whose mask entry is [True] becomes [v]. *)
Definition put_where {A} (v : A) (x : A) (b : bool) : A := if b then v else x.

Definition setitem_mask {A} (a : ndarray3 A) (mask : ndarray3 bool) (v : A)
  : ndarray3 A :=
  zip_with (zip_with (zip_with (put_where v))) a mask.

(** Elementwise predicates give the boolean masks. *)
Definition np_isnan : ndarray3 float64 → ndarray3 bool := map3 isnan.
Definition np_ge (a : ndarray3 float64) (y : float64) : ndarray3 bool :=
  map3 (λ x, ge x y) a.
Definition np_lt (a : ndarray3 float64) (y : float64) : ndarray3 bool :=
  map3 (λ x, lt x y) a.

(** Number of [True] entries of a mask. *)
Definition count_true (m : ndarray3 bool) : nat :=
  length (filter (λ b, b = true) (concat (concat m))).

End Numpy.

(** ** The notebook's FA statements *)

Module FA.
Import Numpy.

(** [fa_img[np.isnan(fa_img)] = 0] *)
Definition sanitize (fa_img : ndarray3 float64) : ndarray3 float64 :=
  setitem_mask fa_img (np_isnan fa_img) f_0.

(** [seed_mask = fa_img.copy(); seed_mask[seed_mask>=0.2] = 1;
    seed_mask[seed_mask<0.2] = 0].  The second mask is computed on the
    array as the first assignment left it. *)
Definition seed_mask (fa_img : ndarray3 float64) : ndarray3 float64 :=
  let m0 := fa_img in
  let m1 := setitem_mask m0 (np_ge m0 f_0_2) f_1 in
  setitem_mask m1 (np_lt m1 f_0_2) f_0.

(** What the sanitization does to one voxel. *)
Definition sanitize_voxel (x : float64) : float64 :=
  if isnan x then f_0 else x.

(** What the two thresholding assignments do to one voxel. *)
Definition seed_voxel (x : float64) : float64 :=
  let y := if ge x f_0_2 then f_1 else x in
  if lt y f_0_2 then f_0 else y.

End FA.

(** ** The response-function file of the CSD episode *)

Module Response.
Import Numpy.

(** What [np.hstack] is handed: a numpy scalar or a one-dimensional array. *)
Inductive array_like : Type :=
| Scalar (x : float64)
| Array1 (xs : list float64).

Definition atleast_1d (a : array_like) : list float64 :=
  match a with
  | Scalar x => [x]
  | Array1 xs => xs
  end.

(** [np.hstack(tup)]: every item is made at least one-dimensional, and the
    one-dimensional arrays are concatenated. *)
Definition hstack (tup : list array_like) : list float64 :=
  concat (atleast_1d <$> tup).

(** [np.savetxt(fname, X)] for a one-dimensional [X]: one value per line. *)
Definition savetxt (X : list float64) : list (list float64) :=
  (λ x, [x]) <$> X.

(** The first result of [auto_response]: the eigenvalues of the response
    tensor and the mean [S0] signal. *)
Record response : Type := {
  evals : float64 * float64 * float64;
  S0 : float64
}.

(** [response[0]] and [response[1]]. *)
Definition response_0 (r : response) : array_like :=
  let '(l1, l2, l3) := evals r in Array1 [l1; l2; l3].
Definition response_1 (r : response) : array_like := Scalar (S0 r).

(** [np.savetxt(os.path.join(out_dir, 'frf.txt'),
               np.hstack([response[0], response[1]]))] *)
Definition frf_txt (r : response) : list (list float64) :=
  savetxt (hstack [response_0 r; response_1 r]).

(** The values of a text file, in reading order. *)
Definition file_values (rows : list (list float64)) : list float64 :=
  concat rows.

(** The response printed in the episode:
    [(array([0.00159258, 0.00033926, 0.00033926]), 201.48318)]. *)
Definition printed_response : response := {|
  evals := (S754_finite false 7344478919227089 (-62),
            S754_finite false 6258242394446702 (-64),
            S754_finite false 6258242394446702 (-64));
  S0 := S754_finite false 7089059174761114 (-45)
|}.

End Response.

(** ** The Python of the notebook cells: tokens *)

Module Python.

(** The outcome of reading or running a piece of a cell.  [SyntaxError] and
    [NameError] are the two Python exceptions modelled; [Unsupported] marks
    source text outside the modelled subset of Python, and [OutOfFuel] a
    recursion bound that was set too low. *)
Inductive result (A : Type) : Type :=
| Ok (a : A)
| SyntaxError (line : nat)
| NameError (name : string)
| Unsupported (line : nat)
| OutOfFuel.
Arguments Ok {A} a.
Arguments SyntaxError {A} line.
Arguments NameError {A} name.
Arguments Unsupported {A} line.
Arguments OutOfFuel {A}.

#[global] Instance result_ret : MRet result := λ A a, Ok a.
#[global] Instance result_bind : MBind result := λ A B k r,
  match r with
  | Ok a => k a
  | SyntaxError l => SyntaxError l
  | NameError x => NameError x
  | Unsupported l => Unsupported l
  | OutOfFuel => OutOfFuel
  end.

Inductive token : Type :=
| NAME (s : string)
| NUMBER (s : string)
| STRING (s : string)
| OP (s : string)
| NEWLINE
| INDENT
| DEDENT
| ENDMARKER.

(** A token with the line of the cell it stands on (first line: 1). *)
Definition ptoken : Type := token * nat.

Definition code (c : ascii) : N := Ascii.N_of_ascii c.
Definition between (lo hi : N) (c : ascii) : bool :=
  (lo <=? code c)%N && (code c <=? hi)%N.
Definition is_char (n : N) (c : ascii) : bool := (code c =? n)%N.

Definition is_digit : ascii → bool := between 48 57.
Definition is_name_start (c : ascii) : bool :=
  between 97 122 c || between 65 90 c || is_char 95 c.
Definition is_name_char (c : ascii) : bool := is_name_start c || is_digit c.
Definition is_blank (c : ascii) : bool := is_char 32 c || is_char 9 c.
Definition is_quote (c : ascii) : bool := is_char 39 c || is_char 34 c.
Definition is_hash : ascii → bool := is_char 35.
Definition is_dot : ascii → bool := is_char 46.
Definition is_open (c : ascii) : bool := is_char 40 c || is_char 91 c.
Definition is_close (c : ascii) : bool := is_char 41 c || is_char 93 c.

Fixpoint span (p : ascii → bool) (cs : list ascii) : list ascii * list ascii :=
  match cs with
  | c :: cs' =>
      if p c then let '(w, rest) := span p cs' in (c :: w, rest) else ([], cs)
  | [] => ([], [])
  end.

Definition str (cs : list ascii) : string := string_of_list_ascii cs.

(** Keywords of Python 3.  The modelled subset reads [import], [from], [as],
    [if], [not] and the constants; a cell that uses another keyword is
    [Unsupported]. *)
Definition subset_keywords : list string :=
  ["import"; "from"; "as"; "if"; "not"; "True"; "False"; "None"].
Definition other_keywords : list string :=
  ["and"; "assert"; "async"; "await"; "break"; "class"; "continue"; "def";
   "del"; "elif"; "else"; "except"; "finally"; "for"; "global"; "in"; "is";
   "lambda"; "nonlocal"; "or"; "pass"; "raise"; "return"; "try"; "while";
   "with"; "yield"].

Definition mem (s : string) (l : list string) : bool :=
  bool_decide (s ∈ l).

(** Operators and delimiters: the ones of the subset, and the other
    operators of Python that start with a character of the subset.  Any
    other character outside a string or a comment is [Unsupported]. *)
Definition subset_ops2 : list string := [">="; "<="; "=="; "!="].
Definition subset_ops1 : list string :=
  ["("; ")"; "["; "]"; ","; "="; "."; "%"; ":"; "<"; ">"; "+"; "-"; "*"; "/"].
Definition other_ops2 : list string :=
  ["**"; "//"; "<<"; ">>"; "+="; "-="; "*="; "/="; "%="; "&="; "|="; "^=";
   "->"; ":="; "@="; "<>"; ".."].

(** The string literal that opens with quote [q]: its body and what follows
    the closing quote.  A backslash or a line end inside is outside the
    subset. *)
Fixpoint string_body (q : ascii) (cs : list ascii)
  : option (list ascii * list ascii) :=
  match cs with
  | [] => None
  | c :: cs' =>
      if bool_decide (c = q) then Some ([], cs')
      else '(b, rest) ← string_body q cs'; Some (c :: b, rest)
  end.

(** The tokens of one physical line, after its indentation.  [depth] counts
    the brackets left open. *)
Fixpoint lex_chars (fuel : nat) (ln : nat) (depth : nat) (cs : list ascii)
  : result (list ptoken * nat) :=
  match fuel with
  | O => OutOfFuel
  | S fuel =>
      match cs with
      | [] => Ok ([], depth)
      | c :: cs' =>
          let emit (t : token) (d : nat) (rest : list ascii) :=
            '(ts, d') ← lex_chars fuel ln d rest; Ok ((t, ln) :: ts, d') in
          if is_blank c then lex_chars fuel ln depth cs'
          else if is_hash c then Ok ([], depth)
          else if is_name_start c then
            let '(w, rest) := span is_name_char cs in
            if mem (str w) other_keywords then Unsupported ln
            else match rest with
                 | q :: _ => if is_quote q then Unsupported ln
                             else emit (NAME (str w)) depth rest
                 | [] => emit (NAME (str w)) depth rest
                 end
          else if is_digit c || (is_dot c && from_option is_digit false (head cs')) then
            let '(w, rest) := span (λ x, is_digit x || is_dot x) cs in
            if (1 <? length (filter (λ x, is_dot x = true) w))%nat
               || from_option is_name_start false (head rest)
            then Unsupported ln
            else emit (NUMBER (str w)) depth rest
          else if is_quote c then
            match string_body c cs' with
            | None => SyntaxError ln
            | Some (b, rest) =>
                if existsb (is_char 92) b then Unsupported ln
                else match b, rest with
                     | [], q :: _ => if bool_decide (q = c) then Unsupported ln
                                     else emit (STRING (str b)) depth rest
                     | _, _ => emit (STRING (str b)) depth rest
                     end
            end
          else
            let two := str (take 2 cs) in
            let one := str [c] in
            if mem two other_ops2 then Unsupported ln
            else if mem two subset_ops2 then emit (OP two) depth (drop 2 cs)
            else if mem one subset_ops1 then
              emit (OP one)
                   (if is_open c then S depth
                    else if is_close c then pred depth else depth) cs'
            else Unsupported ln
      end
  end.

(** Indentation: a deeper line opens a block, a shallower one closes every
    block it leaves and must return to an enclosing level. *)
Fixpoint dedent (fuel : nat) (ln : nat) (col : nat) (indents : list nat)
  : result (list ptoken * list nat) :=
  match fuel with
  | O => OutOfFuel
  | S fuel =>
      match indents with
      | top :: below =>
          if (col <? top)%nat then
            '(ts, st) ← dedent fuel ln col below; Ok ((DEDENT, ln) :: ts, st)
          else if (col =? top)%nat then Ok ([], indents)
          else SyntaxError ln
      | [] => if (col =? 0)%nat then Ok ([], []) else SyntaxError ln
      end
  end.

Definition indentation (ln col : nat) (indents : list nat)
  : result (list ptoken * list nat) :=
  let top := default 0%nat (head indents) in
  if (top <? col)%nat then Ok ([(INDENT, ln)], col :: indents)
  else dedent (S (length indents)) ln col indents.

(** IPython rewrites a line magic [%name rest] into the call
    [get_ipython().run_line_magic('name', 'rest')] before Python reads the
    cell. *)
Definition line_magic (ln : nat) (after : list ascii) : result (list ptoken) :=
  let '(name, rest) := span (λ c, negb (is_blank c)) after in
  let '(_, arg) := span is_blank rest in
  if from_option is_name_start false (head name)
     && negb (existsb is_quote after) then
    Ok ((λ t, (t, ln)) <$>
        [NAME "get_ipython"; OP "("; OP ")"; OP "."; NAME "run_line_magic";
         OP "("; STRING (str name); OP ","; STRING (str arg); OP ")"; NEWLINE])
  else Unsupported ln.

(** The tokens of a cell given as its physical lines.  Inside brackets line
    ends and indentation do not count; blank and comment-only lines give no
    token.  A line with a backslash (a continuation or an escape) or with a
    tab in its indentation is outside the subset. *)
Fixpoint lex_lines (ln : nat) (depth : nat) (indents : list nat)
    (lines : list string) : result (list ptoken) :=
  match lines with
  | [] =>
      if (0 <? depth)%nat then SyntaxError ln
      else Ok (((λ _, (DEDENT, ln)) <$> indents) ++ [(ENDMARKER, ln)])
  | l :: lines' =>
      let cs := list_ascii_of_string l in
      let '(blanks, body) := span is_blank cs in
      if existsb (is_char 92) cs || existsb (is_char 9) blanks then
        Unsupported ln
      else if (0 <? depth)%nat then
        '(ts, d) ← lex_chars (S (length cs)) ln depth body;
        rest ← lex_lines (S ln) d indents lines';
        Ok (ts ++ (if (d =? 0)%nat then [(NEWLINE, ln)] else []) ++ rest)
      else
        match body with
        | [] => lex_lines (S ln) depth indents lines'
        | c :: after =>
            if is_hash c then lex_lines (S ln) depth indents lines'
            else if is_char 37 c then
              '(its, st) ← indentation ln (length blanks) indents;
              ts ← line_magic ln after;
              rest ← lex_lines (S ln) depth st lines';
              Ok (its ++ ts ++ rest)
            else
              '(its, st) ← indentation ln (length blanks) indents;
              '(ts, d) ← lex_chars (S (length cs)) ln depth body;
              rest ← lex_lines (S ln) d st lines';
              Ok (its ++ ts ++ (if (d =? 0)%nat then [(NEWLINE, ln)] else [])
                      ++ rest)
        end
  end.

Definition tokenize (lines : list string) : result (list ptoken) :=
  lex_lines 1 0 [] lines.

(** ** The Python of the notebook cells: syntax *)

Inductive expr : Type :=
| EName (id : string)
| EConst (c : string)
| ENum (n : string)
| EStr (s : string)
| EAttr (value : expr) (attr : string)
| ESubscript (value : expr) (index : expr)
| ECall (func : expr) (args : list expr) (keywords : list (string * expr))
| ETuple (elts : list expr)
| EList (elts : list expr)
| ENot (operand : expr)
| ENeg (operand : expr)
| EBinOp (left : expr) (op : string) (right : expr).

Inductive stmt : Type :=
| Import (module : list string) (asname : option string)
| ImportFrom (module : list string) (names : list (string * option string))
| Assign (targets : list expr) (value : expr)
| Expr (value : expr)
| If (test : expr) (body : list stmt).

Definition line_of (ts : list ptoken) : nat :=
  match ts with (_, l) :: _ => l | [] => 0%nat end.
Definition syntax_error {A} (ts : list ptoken) : result A :=
  SyntaxError (line_of ts).
Definition unsupported {A} (ts : list ptoken) : result A :=
  Unsupported (line_of ts).

Definition next_op (ts : list ptoken) : option string :=
  match ts with (OP o, _) :: _ => Some o | _ => None end.
Definition next_name (ts : list ptoken) : option string :=
  match ts with (NAME x, _) :: _ => Some x | _ => None end.
Definition at_op (o : string) (ts : list ptoken) : bool :=
  bool_decide (next_op ts = Some o).
Definition at_kw (k : string) (ts : list ptoken) : bool :=
  bool_decide (next_name ts = Some k).

(** The token [o] is next, or the source is not Python. *)
Definition expect_op (o : string) (ts : list ptoken) : result (list ptoken) :=
  if at_op o ts then Ok (tail ts) else syntax_error ts.

(** An identifier: a name that is no keyword. *)
Definition identifier (ts : list ptoken) : result (string * list ptoken) :=
  match ts with
  | (NAME x, _) :: r => if mem x subset_keywords then syntax_error ts else Ok (x, r)
  | _ => syntax_error ts
  end.

(** Binary operators by binding strength, weakest first; all associate to
    the left. *)
Definition level_ops (lvl : nat) : list string :=
  match lvl with
  | 0%nat => ["<"; ">"; "=="; ">="; "<="; "!="]
  | 1%nat => ["+"; "-"]
  | 2%nat => ["*"; "/"; "%"]
  | _ => []
  end.

(** Whether a token can start an expression: it tells a trailing comma
    from a separating one. *)
Definition starts_expr (ts : list ptoken) : bool :=
  match ts with
  | (NAME _, _) :: _ | (NUMBER _, _) :: _ | (STRING _, _) :: _ => true
  | (OP o, _) :: _ => mem o ["("; "["; "-"; "+"; "*"]
  | _ => false
  end.

(** In a call every positional argument precedes the keyword arguments, and
    no keyword is given twice. *)
Fixpoint split_args (ln : nat) (seen_kw : bool) (l : list (option string * expr))
  : result (list expr * list (string * expr)) :=
  match l with
  | [] => Ok ([], [])
  | (None, e) :: l' =>
      if seen_kw then SyntaxError ln
      else '(ps, ks) ← split_args ln false l'; Ok (e :: ps, ks)
  | (Some k, e) :: l' =>
      '(ps, ks) ← split_args ln true l';
      if mem k (fst <$> ks) then SyntaxError ln else Ok (ps, (k, e) :: ks)
  end.

Fixpoint p_test (n : nat) (ts : list ptoken) : result (expr * list ptoken) :=
  match n with
  | O => OutOfFuel
  | S n =>
      if at_kw "not" ts then
        '(e, r) ← p_test n (tail ts); Ok (ENot e, r)
      else p_binary n 0 ts
  end
with p_binary (n : nat) (lvl : nat) (ts : list ptoken)
  : result (expr * list ptoken) :=
  match n with
  | O => OutOfFuel
  | S n =>
      match level_ops lvl with
      | [] => p_factor n ts
      | ops => '(l, r) ← p_binary n (S lvl) ts; p_binary_rest n lvl ops l r
      end
  end
with p_binary_rest (n : nat) (lvl : nat) (ops : list string) (l : expr)
    (ts : list ptoken) : result (expr * list ptoken) :=
  match n with
  | O => OutOfFuel
  | S n =>
      match next_op ts with
      | Some o =>
          if mem o ops then
            '(r, rest) ← p_binary n (S lvl) (tail ts);
            p_binary_rest n lvl ops (EBinOp l o r) rest
          else Ok (l, ts)
      | None => Ok (l, ts)
      end
  end
with p_factor (n : nat) (ts : list ptoken) : result (expr * list ptoken) :=
  match n with
  | O => OutOfFuel
  | S n =>
      if at_op "-" ts then '(e, r) ← p_factor n (tail ts); Ok (ENeg e, r)
      else if at_op "+" ts then unsupported ts
      else '(a, r) ← p_atom n ts; p_trailers n a r
  end
with p_atom (n : nat) (ts : list ptoken) : result (expr * list ptoken) :=
  match n with
  | O => OutOfFuel
  | S n =>
      match ts with
      | (NAME x, _) :: r =>
          if mem x ["True"; "False"; "None"] then Ok (EConst x, r)
          else if mem x subset_keywords then syntax_error ts
          else Ok (EName x, r)
      | (NUMBER s, _) :: r => Ok (ENum s, r)
      | (STRING s, _) :: r =>
          match r with
          | (STRING _, _) :: _ => unsupported r
          | _ => Ok (EStr s, r)
          end
      | (OP o, _) :: r =>
          if bool_decide (o = "(") then
            if at_op ")" r then Ok (ETuple [], tail r)
            else
              '(es, comma, r1) ← p_tests n r;
              r2 ← expect_op ")" r1;
              match es, comma with
              | [e], false => Ok (e, r2)
              | _, _ => Ok (ETuple es, r2)
              end
          else if bool_decide (o = "[") then
            if at_op "]" r then Ok (EList [], tail r)
            else
              '(es, _, r1) ← p_tests n r;
              r2 ← expect_op "]" r1;
              Ok (EList es, r2)
          else if bool_decide (o = "*") then unsupported ts
          else syntax_error ts
      | _ => syntax_error ts
      end
  end
with p_trailers (n : nat) (e : expr) (ts : list ptoken)
  : result (expr * list ptoken) :=
  match n with
  | O => OutOfFuel
  | S n =>
      if at_op "(" ts then
        '(l, r) ← p_arglist n (tail ts);
        '(ps, ks) ← split_args (line_of ts) false l;
        p_trailers n (ECall e ps ks) r
      else if at_op "[" ts then
        if at_op ":" (tail ts) then unsupported (tail ts)
        else
          '(es, comma, r1) ← p_tests n (tail ts);
          if at_op ":" r1 then unsupported r1
          else
            r2 ← expect_op "]" r1;
            match es, comma with
            | [i], false => p_trailers n (ESubscript e i) r2
            | _, _ => p_trailers n (ESubscript e (ETuple es)) r2
            end
      else if at_op "." ts then
        '(a, r) ← identifier (tail ts); p_trailers n (EAttr e a) r
      else Ok (e, ts)
  end
with p_tests (n : nat) (ts : list ptoken)
  : result (list expr * bool * list ptoken) :=
  match n with
  | O => OutOfFuel
  | S n =>
      '(e, r) ← p_test n ts;
      if at_op "," r then
        if starts_expr (tail r) then
          '(es, _, r') ← p_tests n (tail r); Ok (e :: es, true, r')
        else Ok ([e], true, tail r)
      else Ok ([e], false, r)
  end
with p_arglist (n : nat) (ts : list ptoken)
  : result (list (option string * expr) * list ptoken) :=
  match n with
  | O => OutOfFuel
  | S n =>
      if at_op ")" ts then Ok ([], tail ts)
      else
        '(a, r) ← p_argument n ts;
        if at_op "," r then
          '(l, r') ← p_arglist n (tail r); Ok (a :: l, r')
        else if at_op ")" r then Ok ([a], tail r)
        else syntax_error r
  end
with p_argument (n : nat) (ts : list ptoken)
  : result (option string * expr * list ptoken) :=
  match n with
  | O => OutOfFuel
  | S n =>
      match ts with
      | (NAME x, _) :: (OP o, _) :: r =>
          if bool_decide (o = "=") then
            if mem x subset_keywords then syntax_error ts
            else '(e, r') ← p_test n r; Ok (Some x, e, r')
          else '(e, r') ← p_test n ts; Ok (None, e, r')
      | _ => '(e, r') ← p_test n ts; Ok (None, e, r')
      end
  end.

Definition p_testlist (n : nat) (ts : list ptoken)
  : result (expr * list ptoken) :=
  '(es, comma, r) ← p_tests n ts;
  match es, comma with
  | [e], false => Ok (e, r)
  | _, _ => Ok (ETuple es, r)
  end.

(** What may stand left of [=]. *)
Fixpoint assignable (e : expr) : bool :=
  match e with
  | EName _ | EAttr _ _ | ESubscript _ _ => true
  | ETuple es | EList es => forallb assignable es
  | _ => false
  end.

Fixpoint p_dotted (n : nat) (ts : list ptoken)
  : result (list string * list ptoken) :=
  match n with
  | O => OutOfFuel
  | S n =>
      '(x, r) ← identifier ts;
      if at_op "." r then '(xs, r') ← p_dotted n (tail r); Ok (x :: xs, r')
      else Ok ([x], r)
  end.

Definition p_asname (ts : list ptoken) : result (option string * list ptoken) :=
  if at_kw "as" ts then '(x, r) ← identifier (tail ts); Ok (Some x, r)
  else Ok (None, ts).

Fixpoint p_import_names (n : nat) (ts : list ptoken)
  : result (list (string * option string) * list ptoken) :=
  match n with
  | O => OutOfFuel
  | S n =>
      '(x, r) ← identifier ts;
      '(a, r1) ← p_asname r;
      if at_op "," r1 then
        '(l, r2) ← p_import_names n (tail r1); Ok ((x, a) :: l, r2)
      else Ok ([(x, a)], r1)
  end.

(** [t1 = t2 = ... = value]: the targets and the value. *)
Fixpoint p_assign_rest (n : nat) (first : expr) (ts : list ptoken)
  : result (list expr * expr * list ptoken) :=
  match n with
  | O => OutOfFuel
  | S n =>
      if at_op "=" ts then
        if assignable first then
          '(e, r) ← p_testlist n (tail ts);
          '(tg, v, r') ← p_assign_rest n e r;
          Ok (first :: tg, v, r')
        else syntax_error ts
      else Ok ([], first, ts)
  end.

(** A simple statement ends its logical line. *)
Definition end_of_line (ts : list ptoken) : result (list ptoken) :=
  match ts with
  | (NEWLINE, _) :: r => Ok r
  | _ => if at_op ":" ts || at_op "," ts then unsupported ts
         else syntax_error ts
  end.

Definition p_simple_stmt (n : nat) (ts : list ptoken)
  : result (stmt * list ptoken) :=
  if at_kw "import" ts then
    '(m, r) ← p_dotted n (tail ts);
    '(a, r1) ← p_asname r;
    r2 ← end_of_line r1;
    Ok (Import m a, r2)
  else if at_kw "from" ts then
    if at_op "." (tail ts) then unsupported ts
    else
      '(m, r) ← p_dotted n (tail ts);
      if at_kw "import" r then
        if at_op "*" (tail r) || at_op "(" (tail r) then unsupported r
        else
          '(l, r1) ← p_import_names n (tail r);
          r2 ← end_of_line r1;
          Ok (ImportFrom m l, r2)
      else syntax_error r
  else
    '(e, r) ← p_testlist n ts;
    '(tg, v, r1) ← p_assign_rest n e r;
    r2 ← end_of_line r1;
    Ok (match tg with [] => Expr v | _ => Assign tg v end, r2).

Fixpoint p_stmt (n : nat) (ts : list ptoken) : result (stmt * list ptoken) :=
  match n with
  | O => OutOfFuel
  | S n =>
      if at_kw "if" ts then
        '(c, r) ← p_test n (tail ts);
        r1 ← expect_op ":" r;
        match r1 with
        | (NEWLINE, _) :: (INDENT, _) :: r2 =>
            '(body, r3) ← p_block n r2; Ok (If c body, r3)
        | (NEWLINE, _) :: r2 => syntax_error r2
        | _ => unsupported r1
        end
      else
        match ts with
        | (INDENT, _) :: _ => syntax_error ts
        | _ => p_simple_stmt n ts
        end
  end
with p_block (n : nat) (ts : list ptoken)
  : result (list stmt * list ptoken) :=
  match n with
  | O => OutOfFuel
  | S n =>
      '(s, r) ← p_stmt n ts;
      match r with
      | (DEDENT, _) :: r' => Ok ([s], r')
      | _ => '(ss, r') ← p_block n r; Ok (s :: ss, r')
      end
  end.

Fixpoint p_file (n : nat) (ts : list ptoken) : result (list stmt) :=
  match n with
  | O => OutOfFuel
  | S n =>
      match ts with
      | [] | (ENDMARKER, _) :: _ => Ok []
      | _ => '(s, r) ← p_stmt n ts; ss ← p_file n r; Ok (s :: ss)
      end
  end.

(** The statements of a cell, or the first reason it is not a Python
    program.  The recursion bound covers the deepest nesting a cell of that
    many tokens can have. *)
Definition parse (lines : list string) : result (list stmt) :=
  ts ← tokenize lines;
  p_file (20 * length ts + 20) ts.

(** ** The Python of the notebook cells: names

    Running a cell binds names (imports, assignment targets) and reads names.
    Reading a name that neither the notebook nor the interpreter has bound
    raises [NameError]; nothing else is modelled to fail: a library call
    returns, and the truth of a condition is left to an oracle. *)

(** The built-in functions of Python 3.7 and the names IPython adds to a
    fresh session (the exception classes are left out: no cell reads one). *)
Definition builtins : gset string :=
  list_to_set
    ["abs"; "all"; "any"; "ascii"; "bin"; "bool"; "breakpoint"; "bytearray";
     "bytes"; "callable"; "chr"; "classmethod"; "compile"; "complex";
     "delattr"; "dict"; "dir"; "divmod"; "enumerate"; "eval"; "exec";
     "filter"; "float"; "format"; "frozenset"; "getattr"; "globals";
     "hasattr"; "hash"; "help"; "hex"; "id"; "input"; "int"; "isinstance";
     "issubclass"; "iter"; "len"; "list"; "locals"; "map"; "max";
     "memoryview"; "min"; "next"; "object"; "oct"; "open"; "ord"; "pow";
     "print"; "property"; "range"; "repr"; "reversed"; "round"; "set";
     "setattr"; "slice"; "sorted"; "staticmethod"; "str"; "sum"; "super";
     "tuple"; "type"; "vars"; "zip"; "__import__"; "get_ipython"; "In";
     "Out"; "exit"; "quit"].

Definition lookup_name (ns : gset string) (x : string) : result () :=
  if bool_decide (x ∈ ns) || bool_decide (x ∈ builtins) then Ok ()
  else NameError x.

(** Evaluation reads names in Python's order: the callee, then the
    positional arguments, then the keyword values, left to right. *)
Fixpoint eval (ns : gset string) (e : expr) : result () :=
  match e with
  | EName x => lookup_name ns x
  | EConst _ | ENum _ | EStr _ => Ok ()
  | EAttr v _ => eval ns v
  | ESubscript v i => _ ← eval ns v; eval ns i
  | ECall f args kws =>
      _ ← eval ns f;
      _ ← (fix go (l : list expr) : result () :=
             match l with
             | [] => Ok ()
             | a :: l' => _ ← eval ns a; go l'
             end) args;
      (fix go (l : list (string * expr)) : result () :=
         match l with
         | [] => Ok ()
         | (_, a) :: l' => _ ← eval ns a; go l'
         end) kws
  | ETuple es | EList es =>
      (fix go (l : list expr) : result () :=
         match l with
         | [] => Ok ()
         | a :: l' => _ ← eval ns a; go l'
         end) es
  | ENot v | ENeg v => eval ns v
  | EBinOp l _ r => _ ← eval ns l; eval ns r
  end.

(** Assigning to a target: a name is bound; an attribute or an item is
    stored into an object that is read first. *)
Fixpoint store (ns : gset string) (t : expr) : result (gset string) :=
  match t with
  | EName x => Ok ({[x]} ∪ ns)
  | ETuple es | EList es =>
      (fix go (ns : gset string) (l : list expr) : result (gset string) :=
         match l with
         | [] => Ok ns
         | a :: l' => ns' ← store ns a; go ns' l'
         end) ns es
  | EAttr v _ => _ ← eval ns v; Ok ns
  | ESubscript v i => _ ← eval ns v; _ ← eval ns i; Ok ns
  | _ => Ok ns
  end.

Fixpoint store_all (ns : gset string) (ts : list expr) : result (gset string) :=
  match ts with
  | [] => Ok ns
  | t :: ts' => ns' ← store ns t; store_all ns' ts'
  end.

(** The name an import binds: [import a.b.c] binds [a], [import a.b.c as x]
    binds [x], [from m import y as z] binds [z]. *)
Definition import_binds (m : list string) (asname : option string) : string :=
  default (default EmptyString (head m)) asname.
Definition from_binds (names : list (string * option string)) : list string :=
  (λ na, default na.1 na.2) <$> names.

Fixpoint exec (oracle : expr → bool) (ns : gset string) (s : stmt)
  : result (gset string) :=
  match s with
  | Import m a => Ok ({[import_binds m a]} ∪ ns)
  | ImportFrom _ names => Ok (list_to_set (from_binds names) ∪ ns)
  | Assign ts v => _ ← eval ns v; store_all ns ts
  | Expr v => _ ← eval ns v; Ok ns
  | If c body =>
      _ ← eval ns c;
      if oracle c then
        (fix go (ns : gset string) (l : list stmt) : result (gset string) :=
           match l with
           | [] => Ok ns
           | s' :: l' => ns' ← exec oracle ns s'; go ns' l'
           end) ns body
      else Ok ns
  end.

Fixpoint exec_all (oracle : expr → bool) (ns : gset string) (ss : list stmt)
  : result (gset string) :=
  match ss with
  | [] => Ok ns
  | s :: ss' => ns' ← exec oracle ns s; exec_all oracle ns' ss'
  end.

(** Every name a statement can bind, whichever way its conditions go. *)
Fixpoint target_names (t : expr) : list string :=
  match t with
  | EName x => [x]
  | ETuple es | EList es => concat (target_names <$> es)
  | _ => []
  end.

Fixpoint bound_names (s : stmt) : list string :=
  match s with
  | Import m a => [import_binds m a]
  | ImportFrom _ names => from_binds names
  | Assign ts _ => concat (target_names <$> ts)
  | Expr _ => []
  | If _ body => concat (bound_names <$> body)
  end.

End Python.

(** ** The deterministic tractography notebook, cell by cell *)

Module Notebook.
Import Python.
Open Scope string_scope.

(** A code cell: the line of the notebook file its source starts on, and its
    source lines as the file lists them (without the line ends). *)
Record cell : Type := {
  first_line : nat;
  source : list string
}.

(** The double quote, for the Python string literals written with it. *)
Definition dq : string := String (ascii_of_nat 34) EmptyString.

Definition cell_load : cell := {|
  first_line := 19;
  source :=
    ["from bids.layout import BIDSLayout";
     "from dipy.io.gradients import read_bvals_bvecs";
     "from dipy.core.gradients import gradient_table";
     "from nilearn import image as img";
     "import nibabel as nib";
     "";
     "layout = BIDSLayout(" ++ dq ++ "../../data/ds000221/derivatives" ++ dq ++ ", validate=False)";
     "";
     "subj = '010006'";
     "";
     "dwi = layout.get(subject=subj, suffix='preproc', extension='nii.gz', return_type='file')[0]";
     "bval = layout.get(subject=subj suffix='preproc', extension='bval', return_type='file')[0]";
     "bvec = layout.get(subject=subj suffix='preproc', extension='bvec', return_type='file')[0]";
     "";
     "dwi_img = img.load_img(dwi)";
     "affine = dwi_img.affine";
     "";
     "gt_bvals, gt_bvecs = read_bvals_bvecs(bval, bvec)";
     "gtab = gradient_table(gt_bvals, gt_bvecs)"]
|}.

Definition cell_fit : cell := {|
  first_line := 45;
  source :=
    ["import dipy.reconst.dti as dti";
     "from dipy.segment.mask import median_otsu";
     "";
     "dwi_data = dwi_img.get_data()";
     "dwi_data, dwi_mask = median_otsu(dwi_data, vol_idx=[0], numpass=1)  # Specify the volume index to the b0 volumes";
     "";
     "dti_model = dti.TensorModel(gtab)";
     "dti_fit = dti_model.fit(dwi_data, mask=dwi_mask)  # This step may take a while"]
|}.

Definition cell_fa : cell := {|
  first_line := 68;
  source :=
    ["fa_img = dti_fit.fa";
     "evecs_img = dti_fit.evecs"]
|}.

Definition cell_sanitize : cell := {|
  first_line := 85;
  source :=
    ["import numpy as np";
     "";
     "fa_img[np.isnan(fa_img)] = 0"]
|}.

Definition cell_sphere : cell := {|
  first_line := 103;
  source :=
    ["from dipy.data import get_sphere";
     "";
     "sphere = get_sphere('symmetric362')"]
|}.

Definition cell_peaks : cell := {|
  first_line := 123;
  source :=
    ["from dipy.direction import peaks_from_model";
     "";
     "peak_indices = peaks_from_model(model=dti_model, data=dwi_data, sphere=sphere, relative_peak_threshold=.2, min_separation_angle=25, mask=dwi_mask, npeaks=2)"]
|}.

Definition cell_stopping : cell := {|
  first_line := 141;
  source :=
    ["from dipy.tracking.stopping_criterion import ThresholdStoppingCriterion";
     "";
     "stopping_criterion = ThresholdStoppingCriterion(fa_img, .2)"]
|}.

Definition cell_seeds : cell := {|
  first_line := 159;
  source :=
    ["from dipy.tracking import utils";
     "";
     "seed_mask = fa_img.copy()";
     "seed_mask[seed_mask>=0.2] = 1";
     "seed_mask[seed_mask<0.2] = 0";
     "";
     "seeds = utils.seeds_from_mask(seed_mask, affine=affine, density=1)"]
|}.

Definition cell_tracking : cell := {|
  first_line := 183;
  source :=
    ["from dipy.tracking.local_tracking import LocalTracking";
     "from dipy.tracking.streamline import Streamlines";
     "";
     "# Initialize local tracking - computation happens in the next step.";
     "streamlines_generator = LocalTracking(peak_indices, stopping_criterion, seeds, affine=affine, step_size=.5)";
     "";
     "# Generate streamlines object";
     "streamlines = Streamlines(streamlines_generator)"]
|}.

Definition cell_save : cell := {|
  first_line := 206;
  source :=
    ["from dipy.io.stateful_tractogram import Space, StatefulTractogram";
     "from dipy.io.streamline import save_trk";
     "";
     "sft = StatefulTractogram(streamlines, dwi_img, Space.RASMM)";
     "save_trk(sft, " ++ dq ++ "tractogram_EuDX.trk" ++ dq ++ ")"]
|}.

Definition cell_import_load : cell := {|
  first_line := 227;
  source :=
    ["from dipy.io.streamline import load_tractogram";
     "from dipy.io.streamline import load_trk"]
|}.

Definition cell_load_trk : cell := {|
  first_line := 237;
  source :=
    ["# sft = load_tractogram('tractogram_EuDX.trk', 'same')";
     "sft = load_trk('tractogram_EuDX.trk', 'same')"]
|}.

Definition cell_to_vox : cell := {|
  first_line := 247;
  source :=
    ["sft.to_vox()";
     "streamlines = sft.streamlines"]
|}.

Definition cell_visualize : cell := {|
  first_line := 256;
  source :=
    ["from dipy.viz import window, actor, colormap";
     "";
     "# Prepare display objects";
     "# streamlines_actor = actor.line(streamlines, colormap.line_colors(streamlines))";
     "streamlines_actor = actor.line(streamlines)";
     "";
     "# Create 3D display";
     "scene = window.Scene()";
     "";
     "# Create the directory to save the results";
     "out_dir = '../../data/ds000221/derivatives/dwi/tractography/sub-%s/ses-01/dwi/' % subj";
     "";
     "if not os.path.exists(out_dir):";
     "    os.makedirs(out_dir)";
     "";
     "det_tractogram_eudx_scene_arr = window.snapshot(";
     "    scene,";
     "    fname=os.path.join(out_dir, 'tractogram_EuDX.png'),";
     "    size=(800, 800), offscreen=True)";
     "";
     "import matplotlib.pyplot as plt";
     "%matplotlib inline";
     "";
     "# Show the image";
     "fig, axes = plt.subplots()";
     "axes.imshow(det_tractogram_eudx_scene_arr, origin=" ++ dq ++ "lower" ++ dq ++ ")";
     "axes.axis(" ++ dq ++ "off" ++ dq ++ ")";
     "plt.show()"]
|}.

Definition cell_empty : cell := {|
  first_line := 0;
  source :=
    []
|}.

(** Running a cell: the whole cell is read first, so a syntax error raises
    before any of its statements runs. *)
Definition run_cell (oracle : expr → bool) (ns : gset string) (c : cell)
  : result (gset string) :=
  ss ← parse (source c);
  exec_all oracle ns ss.

(** Running cells top to bottom: the index of the cell reached, with what it
    raised, or the number of cells and the final namespace. *)
Fixpoint run_cells (oracle : expr → bool) (i : nat) (ns : gset string)
    (cells : list cell) : nat * result (gset string) :=
  match cells with
  | [] => (i, Ok ns)
  | c :: cells' =>
      match run_cell oracle ns c with
      | Ok ns' => run_cells oracle (S i) ns' cells'
      | raised => (i, raised)
      end
  end.

(** The names a cell can bind, when it is a Python program. *)
Definition cell_binds (c : cell) : result (list string) :=
  ss ← parse (source c); Ok (concat (bound_names <$> ss)).

(** What a run raised, its result forgotten. *)
Definition outcome {A} (r : result A) : result () := _ ← r; Ok ().

(** A cell cut after its first [n] lines. *)
Definition first_lines (n : nat) (c : cell) : cell :=
  {| first_line := first_line c; source := take n (source c) |}.

(** The line of the notebook file a line of a cell (first: 1) stands on. *)
Definition file_line (c : cell) (ln : nat) : nat := (first_line c + ln - 1)%nat.

Definition notebook : list cell :=
  [cell_load; cell_fit; cell_fa; cell_sanitize; cell_sphere; cell_peaks;
   cell_stopping; cell_seeds; cell_tracking; cell_save; cell_import_load;
   cell_load_trk; cell_to_vox; cell_visualize; cell_empty].

(** The repair of the typo: a comma between [subject=subj] and the keyword
    argument that follows it, on every line that lacks it. *)
Fixpoint starts_with (p s : list ascii) : bool :=
  match p, s with
  | [], _ => true
  | a :: p', b :: s' => bool_decide (a = b) && starts_with p' s'
  | _ :: _, [] => false
  end.

Fixpoint replace_first (old new s : list ascii) : list ascii :=
  match s with
  | [] => []
  | c :: s' =>
      if starts_with old s then new ++ drop (length old) s
      else c :: replace_first old new s'
  end.

Definition add_comma (l : string) : string :=
  str (replace_first (list_ascii_of_string "subject=subj suffix")
                     (list_ascii_of_string "subject=subj, suffix")
                     (list_ascii_of_string l)).

Definition with_commas (c : cell) : cell :=
  {| first_line := first_line c; source := add_comma <$> source c |}.

Definition notebook_with_commas : list cell :=
  with_commas <$> notebook.

End Notebook.

(** ** Vectors and affine maps over the rationals

    Positions, directions and the voxel-to-scanner transform are exact: the
    stages below are stated over [Q], rounding left out. *)

Module Geometry.

Definition vec3 : Type := Q * Q * Q.

Definition vadd (u v : vec3) : vec3 :=
  let '(a, b, c) := u in let '(x, y, z) := v in (a + x, b + y, c + z)%Q.
Definition vscale (s : Q) (v : vec3) : vec3 :=
  let '(x, y, z) := v in (s * x, s * y, s * z)%Q.
Definition vopp (v : vec3) : vec3 := vscale (-1) v.
Definition dot (u v : vec3) : Q :=
  let '(a, b, c) := u in let '(x, y, z) := v in (a * x + b * y + c * z)%Q.

(** The affine of an image: a 3x3 matrix, by rows, and a translation. *)
Record affine : Type := {
  rows : vec3 * vec3 * vec3;
  translation : vec3
}.

Definition apply_affine (A : affine) (p : vec3) : vec3 :=
  let '(r1, r2, r3) := rows A in
  vadd (dot r1 p, dot r2 p, dot r3 p) (translation A).

(** The coordinates of the centre of voxel [(i, j, k)], in voxel space. *)
Definition voxel_centre (v : nat * nat * nat) : vec3 :=
  let '(i, j, k) := v in
  (inject_Z (Z.of_nat i), inject_Z (Z.of_nat j), inject_Z (Z.of_nat k)).

End Geometry.

(** ** Seed generation

    Modelled from the spec: the seed generator is dipy's, and the repository
    holds only its call; every definition of this module follows section 4.5
    of the specification. *)

Module Seeds.
Import Numpy Geometry.

(** The indices of the [True] voxels of a mask, in index order
    ([np.argwhere]). *)
Fixpoint where1 (i j k : nat) (row : list bool) : list (nat * nat * nat) :=
  match row with
  | [] => []
  | b :: row' => (if b then [(i, j, k)] else []) ++ where1 i j (S k) row'
  end.

Fixpoint where2 (i j : nat) (plane : list (list bool)) : list (nat * nat * nat) :=
  match plane with
  | [] => []
  | row :: plane' => where1 i j 0 row ++ where2 i (S j) plane'
  end.

Fixpoint where3 (i : nat) (m : ndarray3 bool) : list (nat * nat * nat) :=
  match m with
  | [] => []
  | plane :: m' => where2 i 0 plane ++ where3 (S i) m'
  end.

Definition argwhere (m : ndarray3 bool) : list (nat * nat * nat) := where3 0 m.

(** Index order: by the first index, then the second, then the third. *)
Definition index_lt (u v : nat * nat * nat) : Prop :=
  let '(i, j, k) := u in
  let '(i', j', k') := v in
  (i < i' ∨ i = i' ∧ (j < j' ∨ j = j' ∧ k < k'))%nat.

(** A voxel is cut in [d] equal parts along each axis; [offset d a] is the
    centre of part [a], relative to the centre of the voxel. *)
Definition offset (d a : nat) : Q :=
  (Qmake (2 * Z.of_nat a + 1) (Pos.of_nat (2 * d)) - (1 # 2))%Q.

Definition offsets (d : nat) : list Q := offset d <$> seq 0 d.

(** The [d * d * d] sample points of a voxel, relative to its centre.  The
    specification does not fix their order within a voxel; here the first
    axis varies fastest. *)
Definition grid (d : nat) : list vec3 :=
  z ← offsets d; y ← offsets d; x ← offsets d; [(x, y, z)].

(** Modelled from the spec: [utils.seeds_from_mask] is dipy code, of which
    the notebook holds only the call.  Section 4.5: from a binary mask, an
    affine and a seed density (seeds per voxel per axis), the ordered
    sequence of physical-space seed coordinates, one per sub-voxel sample
    point of every voxel of the mask. *)
Definition seeds_from_mask (mask : ndarray3 bool) (A : affine) (density : nat)
  : list vec3 :=
  v ← argwhere mask; g ← grid density; [apply_affine A (vadd (voxel_centre v) g)].

(** An image of 2 mm voxels whose first voxel has its centre at
    [(10, 20, 30)]. *)
Definition demo_affine : affine :=
  {| rows := ((2, 0, 0), (0, 2, 0), (0, 0, 2))%Q;
     translation := (10, 20, 30)%Q |}.

(** A point with its coordinates in lowest terms. *)
Definition reduced (p : vec3) : vec3 :=
  let '(x, y, z) := p in (Qred x, Qred y, Qred z).

End Seeds.

(** ** Peak extraction

    Modelled from the spec: the peak extraction is dipy's, and the repository
    holds only its call; every definition of this module follows section 4.3
    of the specification. *)

Module Peaks.
Import Numpy Geometry.

(** A peak of the orientation distribution of one voxel: the index of a
    vertex of the sphere and the value there. *)
Record peak : Type := {
  direction : nat;
  magnitude : Q
}.

(** [stronger p q]: [p] ranks before [q]. *)
Definition stronger (p q : peak) : Prop :=
  Qle_bool (magnitude q) (magnitude p) = true.

#[global] Instance stronger_dec (p q : peak) : Decision (stronger p q).
Proof. unfold stronger. apply _. Defined.

Section PeakDirections.

(** The sphere sampling, the cosine of the minimum separation angle, the
    relative peak threshold and the maximum number of peaks per voxel. *)
Variable sphere : list vec3.
Variable cos_alpha : Q.
Variable theta : Q.
Variable npeaks : nat.

Definition vertex (i : nat) : vec3 := default (0, 0, 0)%Q (sphere !! i).

(** Two unit directions are closer than the separation angle when their
    cosine exceeds the cosine of that angle. *)
Definition closer (i j : nat) : bool :=
  negb (Qle_bool (dot (vertex i) (vertex j)) cos_alpha).

(** Strongest first, a peak is kept unless it is closer than the separation
    angle to a peak kept before it. *)
Fixpoint suppress (kept : list peak) (l : list peak) : list peak :=
  match l with
  | [] => []
  | p :: l' =>
      if existsb (λ q, closer (direction q) (direction p)) kept
      then suppress kept l'
      else p :: suppress (p :: kept) l'
  end.

(** The candidates ranked strongest first, and those of them that reach
    [theta] times the strongest. *)
Definition ranked (cands : list peak) : list peak := merge_sort stronger cands.

Definition thresholded (cands : list peak) : list peak :=
  let top := default 0%Q (magnitude <$> head (ranked cands)) in
  filter (λ p, Qle_bool (theta * top) (magnitude p) = true) (ranked cands).

Definition retained (cands : list peak) : list peak :=
  suppress [] (thresholded cands).

(** Modelled from the spec: [peaks_from_model] is dipy code, of which the
    notebook holds only the call.  Section 4.3: from the candidate peaks
    of a voxel, keep those that reach the relative threshold, suppress
    strongest-first those within the separation angle of a stronger kept
    peak, and return at most [npeaks] of them, ranked. *)
Definition peak_directions (cands : list peak) : list peak :=
  take npeaks (retained cands).

(** Over the volume: no peak outside the mask. *)
Definition peaks_from_model (cands : ndarray3 (list peak)) (mask : ndarray3 bool)
  : ndarray3 (list peak) :=
  zip_with (zip_with (zip_with
    (λ c (b : bool), if b then peak_directions c else []))) cands mask.

(** Two peaks at least the separation angle apart. *)
Definition apart (p q : peak) : Prop :=
  closer (direction p) (direction q) = false.

(** No two directions of a list are closer than the separation angle. *)
Definition pairwise_separated (out : list peak) : Prop :=
  ∀ i j p q, i ≠ j → out !! i = Some p → out !! j = Some q →
    closer (direction p) (direction q) = false.

End PeakDirections.

(** A small instance: four unit directions in the plane, the cosine of 25
    degrees to four places, and the parameters of the notebook's call
    ([relative_peak_threshold=.2], [npeaks=2]).  Direction 3 lies about 16
    degrees from direction 0. *)
Definition demo_sphere : list vec3 :=
  [(1, 0, 0); (0, 1, 0); (3 # 5, 4 # 5, 0); (24 # 25, 7 # 25, 0)]%Q.
Definition demo_cos_alpha : Q := 9063 # 10000.
Definition demo_theta : Q := 1 # 5.
Definition demo_candidates : list peak :=
  [ {| direction := 1; magnitude := 1 # 10 |};
    {| direction := 2; magnitude := 1 # 2 |};
    {| direction := 0; magnitude := 1 |};
    {| direction := 3; magnitude := 9 # 10 |} ].
Definition demo_peaks : list peak :=
  [ {| direction := 0; magnitude := 1 |};
    {| direction := 2; magnitude := 1 # 2 |} ].

End Peaks.

(** ** The stopping criterion and the streamline tracer

    Modelled from the spec: criterion and tracer are dipy's, and the
    repository holds only their calls; the definitions of this module follow
    sections 4.4 and 4.6 of the specification, [stopping_criterion] apart,
    which is the notebook's own call. *)

Module Tracking.
Import Numpy Geometry.

(** The verdict of a stopping criterion at a position. *)
Inductive status : Type := TRACKPOINT | ENDPOINT | OUTSIDEIMAGE.

#[global] Instance status_eq_dec : EqDecision status.
Proof. solve_decision. Defined.

(** [ThresholdStoppingCriterion(metric_map, threshold)]. *)
Record ThresholdStoppingCriterion : Type := {
  metric_map : ndarray3 float64;
  threshold : float64
}.

(** [stopping_criterion = ThresholdStoppingCriterion(fa_img, .2)] *)
Definition stopping_criterion (fa_img : ndarray3 float64)
  : ThresholdStoppingCriterion :=
  {| metric_map := fa_img; threshold := f_0_2 |}.

Section Criterion.

(** The value of a scalar map at a sub-voxel position, by interpolation;
    there is none outside the valid data region. *)
Variable interpolate : ndarray3 float64 → vec3 → option float64.

(** Modelled from the spec: the criterion is dipy code, of which the
    notebook holds only the constructor call.  Section 4.4: propagation
    continues while the interpolated scalar value at the position is at
    least the threshold; the notebook says the same of its own call (the
    tracking stops at a voxel where FA is below 0.2). *)
Definition check_point (sc : ThresholdStoppingCriterion) (p : vec3) : status :=
  match interpolate (metric_map sc) p with
  | None => OUTSIDEIMAGE
  | Some v => if ge v (threshold sc) then TRACKPOINT else ENDPOINT
  end.

(** The interpolated value at [p] exists and is at least the threshold. *)
Definition reaches (sc : ThresholdStoppingCriterion) (p : vec3) : Prop :=
  ∃ v, interpolate (metric_map sc) p = Some v ∧ ge v (threshold sc) = true.

End Criterion.

Inductive phase : Type := Seeded | Propagating | Terminated.

#[global] Instance phase_eq_dec : EqDecision phase.
Proof. solve_decision. Defined.

(** The tracer at work on one seed and one tracing direction; [points] is
    the streamline so far, latest point first. *)
Record state : Type := {
  phase_of : phase;
  position : vec3;
  heading : vec3;
  steps : nat;
  points : list vec3
}.

Section Tracker.

(** The capabilities the tracer is given: a stopping criterion, the peak
    direction field read at a position for a previous step direction, the
    direction to leave a seed in, the step size and the maximum number of
    steps. *)
Variable criterion : vec3 → status.
Variable next_direction : vec3 → vec3 → vec3.
Variable initial_direction : vec3 → vec3.
Variable step_size : Q.
Variable max_steps : nat.

Definition start (seed d0 : vec3) : state :=
  {| phase_of := Seeded; position := seed; heading := d0; steps := 0;
     points := [] |}.

(** One step from a position with a previous direction, the stopping
    criterion left aside: (a, b) the direction at the position, (c) one step
    of [step_size] along it. *)
Definition advance (pd : vec3 * vec3) : vec3 * vec3 :=
  let d := next_direction pd.1 pd.2 in
  (vadd pd.1 (vscale step_size d), d).

(** Where [k] steps lead when nothing stops them. *)
Fixpoint trajectory (k : nat) (pd : vec3 * vec3) : vec3 * vec3 :=
  match k with
  | O => pd
  | S k' => trajectory k' (advance pd)
  end.

Definition next_heading (s : state) : vec3 :=
  (advance (position s, heading s)).2.
Definition next_position (s : state) : vec3 :=
  (advance (position s, heading s)).1.

(** The phase after [n] steps on a point that passed the criterion. *)
Definition bounded (n : nat) : phase :=
  if (n <? max_steps)%nat then Propagating else Terminated.

(** Modelled from the spec: the tracer is dipy's [LocalTracking], of which
    the notebook holds only the call.  Section 4.6: a seed whose position
    fails the criterion gives an empty streamline; otherwise every step
    (a, b) reads the direction, (c) advances by [step_size] times it and
    (d) evaluates the stopping criterion and the step bound, and the tracer
    terminates when the criterion fails, the step leaves the data region or
    the bound is reached. *)
Definition step (s : state) : state :=
  match phase_of s with
  | Seeded =>
      let p := position s in
      match criterion p with
      | TRACKPOINT =>
          {| phase_of := bounded 0; position := p; heading := heading s;
             steps := 0; points := [p] |}
      | _ =>
          {| phase_of := Terminated; position := p; heading := heading s;
             steps := 0; points := [] |}
      end
  | Propagating =>
      let d := next_heading s in
      let p := next_position s in
      match criterion p with
      | TRACKPOINT =>
          {| phase_of := bounded (S (steps s)); position := p; heading := d;
             steps := S (steps s); points := p :: points s |}
      | _ =>
          {| phase_of := Terminated; position := position s;
             heading := heading s; steps := steps s; points := points s |}
      end
  | Terminated => s
  end.

Fixpoint run (n : nat) (s : state) : state :=
  match n with
  | O => s
  | S n' => run n' (step s)
  end.

(** One tracing direction from a seed, in the order traced. *)
Definition half_track (seed d0 : vec3) : list vec3 :=
  reverse (points (run (S max_steps) (start seed d0))).

(** The streamline of a seed: the backward track reversed, then the forward
    track, the seed counted once. *)
Definition streamline (seed : vec3) : list vec3 :=
  let d0 := initial_direction seed in
  reverse (tail (half_track seed (vopp d0))) ++ half_track seed d0.

(** [Streamlines(LocalTracking(..., seeds, ...))] *)
Definition LocalTracking (seeds : list vec3) : list (list vec3) :=
  streamline <$> seeds.

End Tracker.

(** The voxel a position lies in: the one whose centre is nearest. *)
Definition nearest_index (x : Q) : option nat :=
  let n := Qfloor (x + (1 # 2)) in
  if (n <? 0)%Z then None else Some (Z.to_nat n).

Definition voxel_of (p : vec3) : option (nat * nat * nat) :=
  let '(x, y, z) := p in
  i ← nearest_index x; j ← nearest_index y; k ← nearest_index z;
  Some (i, j, k).

(** Two interpolations for the examples.  [nearest] reads the voxel the
    position lies in. *)
Definition nearest (a : ndarray3 float64) (p : vec3) : option float64 :=
  '(i, j, k) ← voxel_of p; getitem3 a i j k.





(** The maps and fields of the examples: a row of three voxels of FA 0.1,
    0.8 and 0.8, and a field with one direction everywhere. *)
Definition f_0_8 : float64 := S754_finite false 7205759403792794 (-53).
Definition f_0_1 : float64 := S754_finite false 7205759403792794 (-56).

Definition demo_fa : ndarray3 float64 := [[[f_0_1; f_0_8; f_0_8]]].
Definition demo_x : vec3 := (0, 0, 1)%Q.
Definition demo_direction (p prev : vec3) : vec3 := prev.
Definition demo_state : state :=
  {| phase_of := Propagating; position := (0, 0, 1)%Q; heading := demo_x;
     steps := 0; points := [(0, 0, 1)%Q] |}.

End Tracking.

(** ** The array statements of the notebook, run on a store

    The statements of the cells are read from their source text and run on a
    store of names and a heap of arrays: an array is a reference, a plain
    assignment binds an alias, [copy()] allocates, and a masked assignment
    updates the array in place. *)

Module NumpyRun.
Import Python Numpy Notebook.

Definition loc : Type := nat.

Inductive value : Type :=
| VArray (l : loc)
| VMask (m : ndarray3 bool)
| VFloat (x : float64)
| VModule (path : list string)
| VMethod (self : loc) (name : string).

Record store : Type := {
  names : gmap string value;
  heap : gmap loc (ndarray3 float64)
}.

(** What running a statement gives: a result, a Python exception, or
    [NotModelled] for behaviour outside the statements read here. *)
Inductive res (A : Type) : Type :=
| Done (a : A)
| Raise (exc : string)
| NotModelled.
Arguments Done {A} a.
Arguments Raise {A} exc.
Arguments NotModelled {A}.

#[global] Instance res_ret : MRet res := λ A a, Done a.
#[global] Instance res_bind : MBind res := λ A B k r,
  match r with
  | Done a => k a
  | Raise exc => Raise exc
  | NotModelled => NotModelled
  end.

(** A decimal literal as Python reads it: the binary64 nearest to
    [digits / 10^k], which the correctly rounded quotient of the two integers
    is as long as both are binary64 numbers themselves.  An integer literal
    stands for the float it becomes when stored into a float64 array. *)
Definition of_Z (n : Z) : float64 := binary_normalize 53 1024 n 0 false.

Fixpoint digits_value (acc : Z) (cs : list ascii) : Z :=
  match cs with
  | [] => acc
  | c :: cs' => digits_value (10 * acc + (Z.of_N (code c) - 48))%Z cs'
  end.

Definition literal (s : string) : option float64 :=
  let '(int_part, rest) := span is_digit (list_ascii_of_string s) in
  let frac_part :=
    match rest with
    | [] => Some []
    | c :: f => if is_dot c && forallb is_digit f then Some f else None
    end in
  f ← frac_part;
  let ds : list ascii := (int_part ++ f)%list in
  let n := digits_value 0 ds in
  if negb (bool_decide (ds = [])) && (n <? 2 ^ 53)%Z && (length f <=? 22)%nat
  then Some (SFdiv 53 1024 (of_Z n) (of_Z (10 ^ Z.of_nat (length f))%Z))
  else None.

Definition lookup_array (σ : store) (v : value)
  : res (loc * ndarray3 float64) :=
  match v with
  | VArray l =>
      match heap σ !! l with
      | Some a => Done (l, a)
      | None => NotModelled
      end
  | _ => NotModelled
  end.

Definition compare_op (op : string) : option (float64 → float64 → bool) :=
  if String.eqb op ">=" then Some ge
  else if String.eqb op "<" then Some lt
  else None.

(** Two arrays of the same shape. *)
Definition same_shape {A B} (a : ndarray3 A) (b : ndarray3 B) : bool :=
  bool_decide (map3 (λ _, ()) a = map3 (λ _, ()) b).

(** Expressions: names, numbers, [np.isnan(a)], [a.copy()], [a >= x] and
    [a < x].  The callee is evaluated before its argument and the left
    operand before the right one. *)
Fixpoint eval (σ : store) (e : expr) : res (value * store) :=
  match e with
  | EName x =>
      match names σ !! x with
      | Some v => Done (v, σ)
      | None => Raise "NameError"
      end
  | ENum n =>
      match literal n with
      | Some x => Done (VFloat x, σ)
      | None => NotModelled
      end
  | EAttr o a =>
      '(v, σ1) ← eval σ o;
      match v with
      | VModule p => Done (VModule (p ++ [a]), σ1)
      | VArray l => Done (VMethod l a, σ1)
      | _ => NotModelled
      end
  | ECall f args [] =>
      '(fv, σ1) ← eval σ f;
      match fv, args with
      | VModule p, [arg] =>
          if bool_decide (p = ["numpy"; "isnan"]) then
            '(av, σ2) ← eval σ1 arg;
            '(_, a) ← lookup_array σ2 av;
            Done (VMask (map3 isnan a), σ2)
          else NotModelled
      | VMethod l m, [] =>
          if String.eqb m "copy" then
            match heap σ1 !! l with
            | Some a =>
                let l' := fresh (dom (heap σ1)) in
                Done (VArray l',
                      {| names := names σ1; heap := <[l' := a]> (heap σ1) |})
            | None => NotModelled
            end
          else NotModelled
      | _, _ => NotModelled
      end
  | EBinOp l op r =>
      '(lv, σ1) ← eval σ l;
      '(rv, σ2) ← eval σ1 r;
      match compare_op op, rv with
      | Some cmp, VFloat y =>
          '(_, a) ← lookup_array σ2 lv;
          Done (VMask (map3 (λ x, cmp x y) a), σ2)
      | _, _ => NotModelled
      end
  | _ => NotModelled
  end.

Definition bind_name (x : string) (v : value) (σ : store) : store :=
  {| names := <[x := v]> (names σ); heap := heap σ |}.

(** Statements: imports, [x = e], and [t[mask] = e], which evaluates [e],
    then [t], then the mask, and raises [IndexError] when the mask has not
    the shape of the array. *)
Definition exec (σ : store) (s : stmt) : res store :=
  match s with
  | Import m a =>
      Done (bind_name (import_binds m a)
              (VModule (match a with Some _ => m | None => take 1 m end)) σ)
  | ImportFrom m l =>
      Done (foldl (λ σ' na, bind_name (default na.1 na.2)
                              (VModule (m ++ [na.1])) σ') σ l)
  | Assign [EName x] e => '(v, σ1) ← eval σ e; Done (bind_name x v σ1)
  | Assign [ESubscript t i] e =>
      '(v, σ1) ← eval σ e;
      '(tv, σ2) ← eval σ1 t;
      '(iv, σ3) ← eval σ2 i;
      '(l, a) ← lookup_array σ3 tv;
      match iv, v with
      | VMask m, VFloat x =>
          if same_shape a m then
            Done {| names := names σ3;
                    heap := <[l := setitem_mask a m x]> (heap σ3) |}
          else Raise "IndexError"
      | _, _ => NotModelled
      end
  | _ => NotModelled
  end.

Fixpoint exec_all (σ : store) (ss : list stmt) : res store :=
  match ss with
  | [] => Done σ
  | s :: ss' => σ' ← exec σ s; exec_all σ' ss'
  end.

(** Running source lines: they are read first, then run in order. *)
Definition run (σ : store) (lines : list string) : res store :=
  match parse lines with
  | Ok ss => exec_all σ ss
  | SyntaxError _ => Raise "SyntaxError"
  | _ => NotModelled
  end.

(** A store to run on: [fa_img] and an alias of it. *)
Definition demo_store : store :=
  {| names := {[ "fa_img"%string := VArray 0%nat; "fa"%string := VArray 0%nat ]};
     heap := {[ 0%nat := [[[S754_nan; f_0_2; S754_infinity false]]] ]} |}.

End NumpyRun.

(** ** The continuous-integration workflow

    The workflow file as data: the condition of the job, the build matrix and
    the steps with their conditions and scripts, and the expressions of the
    workflow language that they use. *)

Module Workflow.
Import Python Notebook.

Inductive expression : Type :=
| Lit (s : string)
| Context (path : string)
| Not (e : expression)
| NotEqual (a b : expression)
| Contains (search item : expression).

Inductive gh_value : Type :=
| Bool (b : bool)
| Str (s : list ascii).

(** ASCII lower case: the workflow language compares strings and searches
    them without regard to case. *)
Definition lower_char (c : ascii) : ascii :=
  if between 65 90 c then ascii_of_N (code c + 32) else c.
Definition lower (s : list ascii) : list ascii := lower_char <$> s.

(** [needle] occurs in [hay]. *)
Fixpoint occurs (needle hay : list ascii) : bool :=
  starts_with needle hay
  || match hay with
     | [] => false
     | _ :: hay' => occurs needle hay'
     end.

Definition truthy (v : gh_value) : bool :=
  match v with
  | Bool b => b
  | Str s => negb (bool_decide (s = []))
  end.

(** The value of a context that is not set is the empty string.  Equality
    and [contains] are modelled on strings only. *)
Fixpoint eval (ctx : gmap string string) (e : expression) : option gh_value :=
  match e with
  | Lit s => Some (Str (list_ascii_of_string s))
  | Context p => Some (Str (list_ascii_of_string (default EmptyString (ctx !! p))))
  | Not a => v ← eval ctx a; Some (Bool (negb (truthy v)))
  | NotEqual a b =>
      x ← eval ctx a; y ← eval ctx b;
      match x, y with
      | Str s, Str t => Some (Bool (negb (bool_decide (lower s = lower t))))
      | _, _ => None
      end
  | Contains a b =>
      x ← eval ctx a; y ← eval ctx b;
      match x, y with
      | Str s, Str t => Some (Bool (occurs (lower t) (lower s)))
      | _, _ => None
      end
  end.

Record step : Type := {
  step_name : string;
  step_id : option string;
  step_if : option expression;
  uses : option string;
  inputs : list (string * string);
  script : list string
}.

(** [if: "!contains(github.event.head_commit.message, '[skip ci]')"] *)
Definition job_if : expression :=
  Not (Contains (Context "github.event.head_commit.message") (Lit "[skip ci]")).

(** [python-version: [3.6, 3.7, 3.8]] *)
Definition matrix_python_version : list string := ["3.6"; "3.7"; "3.8"].

(** The steps: [with] gives the inputs of an action, [run] the lines of a
    script. *)
Definition checkout : step :=
  {| step_name := "Checkout GitHub repository"; step_id := None;
     step_if := None; uses := Some "actions/checkout@v2"; inputs := [];
     script := [] |}.
Definition setup_python : step :=
  {| step_name := "Setup Python ${{ matrix.python-version }}"; step_id := None;
     step_if := None; uses := Some "actions/setup-python@v2";
     inputs := [("python-version", "${{ matrix.python-version }}")];
     script := [] |}.
Definition cache_pip : step :=
  {| step_name := "Cache pip install"; step_id := Some "cache";
     step_if := None; uses := Some "actions/cache@v2";
     inputs := [("path", ".cache/pip");
                ("key", "${{ runner.os }}-pip-${{ hashFiles('**/requirements.txt') }}");
                ("restore-keys", "${{ runner.os }}-pip-")];
     script := [] |}.
(** [if: steps.cache.outputs.cache-hit != 'true'] *)
Definition install_requirements : step :=
  {| step_name := "Install requirements"; step_id := None;
     step_if := Some (NotEqual (Context "steps.cache.outputs.cache-hit")
                               (Lit "true"));
     uses := None; inputs := [];
     script := ["python -m pip install --upgrade pip";
                "pip3 install virtualenv";
                "virtualenv ~/sdc_bids_dmri";
                "pip install -r requirements.txt";
                "pip install pytest nbval"] |}.
Definition download_data : step :=
  {| step_name := "Download data"; step_id := None; step_if := None;
     uses := None; inputs := []; script := ["osf -p cmq8a clone ./data"] |}.
Definition test_notebooks : step :=
  {| step_name := "Test Notebooks"; step_id := None; step_if := None;
     uses := None; inputs := [];
     script := ["source ~/sdc_bids_dmri/bin/activate";
                "pytest --nbval-lax -v code/*/*.ipynb"] |}.

Definition steps : list step :=
  [checkout; setup_python; cache_pip; install_requirements; download_data;
   test_notebooks].

(** Whether the job runs for a push, and which of its steps run when every
    step before them succeeds. *)
Definition job_runs (ctx : gmap string string) : option bool :=
  truthy <$> eval ctx job_if.

Definition step_runs (ctx : gmap string string) (s : step) : bool :=
  match step_if s with
  | None => true
  | Some e => bool_decide (truthy <$> eval ctx e = Some true)
  end.

Definition steps_run (ctx : gmap string string) : list step :=
  filter (λ s, step_runs ctx s = true) steps.

Definition head_commit_message (ctx : gmap string string) : list ascii :=
  list_ascii_of_string
    (default EmptyString (ctx !! "github.event.head_commit.message"%string)).
Definition cache_hit (ctx : gmap string string) : list ascii :=
  list_ascii_of_string
    (default EmptyString (ctx !! "steps.cache.outputs.cache-hit"%string)).

(** A line of the script of a step, or the [path] input of its action,
    mentions [word]. *)
Definition mentions (word : string) (s : step) : bool :=
  existsb (λ l, occurs (list_ascii_of_string word) (list_ascii_of_string l))
          (script s ++ (snd <$> filter (λ kv, kv.1 = "path"%string) (inputs s))).

End Workflow.

(** ** Sessions: cells run in any order

    A session runs cells of the notebook, picked by their index, in any order
    and any number of times, in one namespace, until a cell raises. *)

Module Session.
Import Python Notebook.

Definition in_order (order : list nat) : list cell :=
  omap (λ i, notebook_with_commas !! i) order.

(** Every name of [ns'] was in [ns] already or is one of [names]. *)
Definition grows_by (ns ns' : gset string) (names : list string) : Prop :=
  ∀ x, x ∈ ns' → x ∈ ns ∨ x ∈ names.

End Session.

(** ** The notebook file

    The notebook is a JSON document: an object whose [cells] are objects
    with a [cell_type] and a [source], the source a list of strings.  The
    reader below is the JSON grammar as a machine over the tokens of the
    file, line by line; the file follows, line for line, without the
    separator line that ends it in the source tree. *)

Module NotebookFile.
Import Python Notebook.
Open Scope string_scope.

(** JSON values; a string keeps the line of the file it stands on. *)
Inductive json : Type :=
| JNull
| JBool (b : bool)
| JNumber (n : string)
| JString (line : nat) (s : string)
| JArray (elements : list json)
| JObject (members : list (string * json)).

(** Tokens.  [JBad] is text that is no JSON token; [JOther] is a token of
    JSON outside the part read here (a fraction, an exponent, a [\u]
    escape, [NaN]).  Either stops the reader when it gets there. *)
Inductive jtoken : Type :=
| LBrace | RBrace | LBracket | RBracket | Comma | Colon
| TString (s : string)
| TNumber (s : string)
| TTrue | TFalse | TNull
| JBad
| JOther.

Definition punctuation (c : ascii) : option jtoken :=
  if is_char 123 c then Some LBrace
  else if is_char 125 c then Some RBrace
  else if is_char 91 c then Some LBracket
  else if is_char 93 c then Some RBracket
  else if is_char 44 c then Some Comma
  else if is_char 58 c then Some Colon
  else None.

Definition is_space (c : ascii) : bool :=
  is_char 32 c || is_char 9 c || is_char 10 c || is_char 13 c.
Definition is_dquote : ascii → bool := is_char 34.
Definition is_backslash : ascii → bool := is_char 92.
Definition is_minus : ascii → bool := is_char 45.
Definition is_letter (c : ascii) : bool :=
  between 97 122 c || between 65 90 c.

(** The character an escape stands for. *)
Definition escape (c : ascii) : option ascii :=
  if is_char 34 c || is_char 92 c || is_char 47 c then Some c
  else if is_char 98 c then Some (ascii_of_N 8)
  else if is_char 102 c then Some (ascii_of_N 12)
  else if is_char 110 c then Some (ascii_of_N 10)
  else if is_char 114 c then Some (ascii_of_N 13)
  else if is_char 116 c then Some (ascii_of_N 9)
  else None.

(** An integer: an optional sign, then [0] or digits that do not start
    with [0]. *)
Definition number (cs : list ascii) : jtoken :=
  let ds := match cs with c :: cs' => if is_minus c then cs' else cs | [] => [] end in
  match ds with
  | [] => JOther
  | d :: ds' =>
      if is_char 48 d && negb (bool_decide (ds' = [])) then JBad
      else TNumber (str cs)
  end.

Definition word (cs : list ascii) : jtoken :=
  let w := str cs in
  if String.eqb w "true" then TTrue
  else if String.eqb w "false" then TFalse
  else if String.eqb w "null" then TNull
  else if String.eqb w "NaN" || String.eqb w "Infinity" then JOther
  else JBad.

(** Where the tokenizer is inside a line. *)
Inductive mode : Type :=
| Between
| InString (acc : list ascii)
| Escaped (acc : list ascii)
| InNumber (acc : list ascii)
| InWord (acc : list ascii).

(** What a character does between two tokens. *)
Inductive action : Type :=
| Skip
| Emit (t : jtoken)
| Start (m : mode)
| Stop (t : jtoken).

Definition between_tokens (c : ascii) : action :=
  if is_space c then Skip
  else if is_dquote c then Start (InString [])
  else match punctuation c with
       | Some t => Emit t
       | None =>
           if is_digit c || is_minus c then Start (InNumber [c])
           else if is_letter c then Start (InWord [c])
           else Stop JBad
       end.

(** The tokens of one line, each with the number of the line.  No token
    goes over a line end: a string holds no raw control character.  The
    accumulators hold the characters read so far, last first. *)
Fixpoint lex_line (ln : nat) (m : mode) (cs : list ascii)
  : list (jtoken * nat) :=
  match cs with
  | [] =>
      match m with
      | Between => []
      | InString _ | Escaped _ => [(JBad, ln)]
      | InNumber acc => [(number (reverse acc), ln)]
      | InWord acc => [(word (reverse acc), ln)]
      end
  | c :: cs' =>
      let continue (before : list (jtoken * nat)) :=
        match between_tokens c with
        | Skip => before ++ lex_line ln Between cs'
        | Emit t => before ++ (t, ln) :: lex_line ln Between cs'
        | Start m' => before ++ lex_line ln m' cs'
        | Stop t => before ++ [(t, ln)]
        end%list in
      match m with
      | Between => continue []
      | InString acc =>
          if is_dquote c then
            (TString (str (reverse acc)), ln) :: lex_line ln Between cs'
          else if is_backslash c then lex_line ln (Escaped acc) cs'
          else if (code c <? 32)%N then [(JBad, ln)]
          else lex_line ln (InString (c :: acc)) cs'
      | Escaped acc =>
          match escape c with
          | Some d => lex_line ln (InString (d :: acc)) cs'
          | None => if is_char 117 c then [(JOther, ln)] else [(JBad, ln)]
          end
      | InNumber acc =>
          if is_digit c then lex_line ln (InNumber (c :: acc)) cs'
          else if is_dot c || is_char 101 c || is_char 69 c then [(JOther, ln)]
          else continue [(number (reverse acc), ln)]
      | InWord acc =>
          if is_letter c then lex_line ln (InWord (c :: acc)) cs'
          else continue [(word (reverse acc), ln)]
      end
  end.

Fixpoint lex_lines (ln : nat) (lines : list string) : list (jtoken * nat) :=
  match lines with
  | [] => []
  | l :: lines' =>
      (lex_line ln Between (list_ascii_of_string l)
         ++ lex_lines (S ln) lines')%list
  end.

(** The reader: a stack of the arrays and objects that are open, and what
    may come next. *)
Inductive frame : Type :=
| InArray (acc : list json)
| InObject (acc : list (string * json))
| InMember (acc : list (string * json)) (key : string).

Inductive expect : Type :=
| Value
| ValueOrClose
| Key
| KeyOrClose
| AfterKey
| CommaOrClose
| End (v : json).

Definition state : Type := expect * list frame.

(** A value is complete: it is the document, an element or a member. *)
Definition put (v : json) (stack : list frame) : option state :=
  match stack with
  | [] => Some (End v, [])
  | InArray acc :: s => Some (CommaOrClose, InArray (v :: acc) :: s)
  | InMember acc k :: s => Some (CommaOrClose, InObject ((k, v) :: acc) :: s)
  | InObject _ :: _ => None
  end.

Definition scalar (t : jtoken) (ln : nat) : option json :=
  match t with
  | TString s => Some (JString ln s)
  | TNumber n => Some (JNumber n)
  | TTrue => Some (JBool true)
  | TFalse => Some (JBool false)
  | TNull => Some JNull
  | _ => None
  end.

Definition step (st : state) (t : jtoken) : nat → option state := λ ln,
  let '(e, stack) := st in
  match e, t with
  | (Value | ValueOrClose), LBracket => Some (ValueOrClose, InArray [] :: stack)
  | (Value | ValueOrClose), LBrace => Some (KeyOrClose, InObject [] :: stack)
  | ValueOrClose, RBracket =>
      match stack with
      | InArray acc :: s => put (JArray (reverse acc)) s
      | _ => None
      end
  | (Value | ValueOrClose), _ => v ← scalar t ln; put v stack
  | KeyOrClose, RBrace =>
      match stack with
      | InObject acc :: s => put (JObject (reverse acc)) s
      | _ => None
      end
  | (Key | KeyOrClose), TString k =>
      match stack with
      | InObject acc :: s => Some (AfterKey, InMember acc k :: s)
      | _ => None
      end
  | AfterKey, Colon => Some (Value, stack)
  | CommaOrClose, Comma =>
      match stack with
      | InArray _ :: _ => Some (Value, stack)
      | InObject _ :: _ => Some (Key, stack)
      | _ => None
      end
  | CommaOrClose, RBracket =>
      match stack with
      | InArray acc :: s => put (JArray (reverse acc)) s
      | _ => None
      end
  | CommaOrClose, RBrace =>
      match stack with
      | InObject acc :: s => put (JObject (reverse acc)) s
      | _ => None
      end
  | _, _ => None
  end.

(** Reading the tokens in order.  A token that cannot come next raises at
    its line; the end of the text before the document is complete raises at
    the last line, [last]. *)
Fixpoint read_tokens (st : state) (last : nat) (ts : list (jtoken * nat))
  : result json :=
  match ts with
  | [] =>
      match st with
      | (End v, _) => Ok v
      | _ => SyntaxError last
      end
  | (t, ln) :: ts' =>
      match t, step st t ln with
      | JOther, _ => Unsupported ln
      | _, Some st' => read_tokens st' last ts'
      | _, None => SyntaxError ln
      end
  end.

Definition read (lines : list string) : result json :=
  read_tokens (Value, []) (length lines) (lex_lines 1 lines).

(** The member of an object: the last one of that name. *)
Fixpoint get (k : string) (m : list (string * json)) : option json :=
  match m with
  | [] => None
  | (k', v) :: m' =>
      match get k m' with
      | Some v' => Some v'
      | None => if String.eqb k k' then Some v else None
      end
  end.

(** The lines of a text, as Python's [splitlines] gives them for line ends
    that are newlines. *)
Fixpoint splitlines (cur : list ascii) (cs : list ascii) : list string :=
  match cs with
  | [] => if bool_decide (cur = []) then [] else [str (reverse cur)]
  | c :: cs' =>
      if is_char 10 c then str (reverse cur) :: splitlines [] cs'
      else splitlines (c :: cur) cs'
  end.

Definition a_string (v : json) : option (nat * string) :=
  match v with JString ln s => Some (ln, s) | _ => None end.

(** The source of a cell: a list of strings, which are joined. *)
Definition source_of (v : json) : option cell :=
  match v with
  | JArray l =>
      strs ← mapM a_string l;
      Some {| first_line := default 0%nat (fst <$> head strs);
              source := splitlines []
                          (concat ((list_ascii_of_string ∘ snd) <$> strs)) |}
  | _ => None
  end.

Definition code_cell (v : json) : option (list cell) :=
  match v with
  | JObject m =>
      match get "cell_type" m with
      | Some (JString _ t) =>
          if String.eqb t "code" then
            src ← get "source" m; c ← source_of src; Some [c]
          else Some []
      | _ => None
      end
  | _ => None
  end.

(** The code cells of a notebook document, top to bottom. *)
Definition cells_of (doc : json) : option (list cell) :=
  match doc with
  | JObject m =>
      match get "cells" m with
      | Some (JArray cs) => l ← mapM code_cell cs; Some (concat l)
      | _ => None
      end
  | _ => None
  end.

Definition code_cells (lines : list string) : result (list cell) :=
  doc ← read lines;
  match cells_of doc with
  | Some cs => Ok cs
  | None => Unsupported 0
  end.

(** A comma added at the end of line [ln]. *)
Definition comma_after (ln : nat) (lines : list string) : list string :=
  alter (λ l, l ++ ",") (pred ln) lines.

Definition notebook_file : list string :=
    ["{";
     " " ++ dq ++ "cells" ++ dq ++ ": [";
     "  {";
     "   " ++ dq ++ "cell_type" ++ dq ++ ": " ++ dq ++ "markdown" ++ dq ++ ",";
     "   " ++ dq ++ "metadata" ++ dq ++ ": {},";
     "   " ++ dq ++ "source" ++ dq ++ ": [";
     "    " ++ dq ++ "## Deterministic tractography\n" ++ dq ++ ",";
     "    " ++ dq ++ "\n" ++ dq ++ ",";
     "    " ++ dq ++ "Deterministic tractography algorithms perform tracking of streamlines by following a predictable path, such as following the primary diffusion direction ($\\lambda_1$).\n" ++ dq ++ ",";
     "    " ++ dq ++ "\n" ++ dq ++ ",";
     "    " ++ dq ++ "In order to demonstrate how to perform deterministic tracking on a diffusion MRI dataset, we will quickly repeat the steps from the previous notebook and compute the diffusion tensor. We will additionally extract the `affine` data from the diffusion image, which we will need later on!" ++ dq;
     "   ]";
     "  },";
     "  {";
     "   " ++ dq ++ "cell_type" ++ dq ++ ": " ++ dq ++ "code" ++ dq ++ ",";
     "   " ++ dq ++ "execution_count" ++ dq ++ ": 7,";
     "   " ++ dq ++ "metadata" ++ dq ++ ": {},";
     "   " ++ dq ++ "source" ++ dq ++ ": [";
     "    " ++ dq ++ "from bids.layout import BIDSLayout\n" ++ dq ++ ",";
     "    " ++ dq ++ "from dipy.io.gradients import read_bvals_bvecs\n" ++ dq ++ ",";
     "    " ++ dq ++ "from dipy.core.gradients import gradient_table\n" ++ dq ++ ",";
     "    " ++ dq ++ "from nilearn import image as img\n" ++ dq ++ ",";
     "    " ++ dq ++ "import nibabel as nib\n" ++ dq ++ ",";
     "    " ++ dq ++ "\n" ++ dq ++ ",";
     "    " ++ dq ++ "layout = BIDSLayout(\" ++ dq ++ "../../data/ds000221/derivatives\" ++ dq ++ ", validate=False)\n" ++ dq ++ ",";
     "    " ++ dq ++ "\n" ++ dq ++ ",";
     "    " ++ dq ++ "subj = '010006'\n" ++ dq ++ ",";
     "    " ++ dq ++ "\n" ++ dq ++ ",";
     "    " ++ dq ++ "dwi = layout.get(subject=subj, suffix='preproc', extension='nii.gz', return_type='file')[0]\n" ++ dq ++ ",";
     "    " ++ dq ++ "bval = layout.get(subject=subj suffix='preproc', extension='bval', return_type='file')[0]\n" ++ dq ++ ",";
     "    " ++ dq ++ "bvec = layout.get(subject=subj suffix='preproc', extension='bvec', return_type='file')[0]\n" ++ dq ++ ",";
     "    " ++ dq ++ "\n" ++ dq ++ ",";
     "    " ++ dq ++ "dwi_img = img.load_img(dwi)\n" ++ dq ++ ",";
     "    " ++ dq ++ "affine = dwi_img.affine\n" ++ dq ++ ",";
     "    " ++ dq ++ "\n" ++ dq ++ ",";
     "    " ++ dq ++ "gt_bvals, gt_bvecs = read_bvals_bvecs(bval, bvec)\n" ++ dq ++ ",";
     "    " ++ dq ++ "gtab = gradient_table(gt_bvals, gt_bvecs)" ++ dq;
     "   ]";
     "  },";
     "  {";
     "   " ++ dq ++ "cell_type" ++ dq ++ ": " ++ dq ++ "code" ++ dq ++ ",";
     "   " ++ dq ++ "execution_count" ++ dq ++ ": 2,";
     "   " ++ dq ++ "metadata" ++ dq ++ ": {},";
     "   " ++ dq ++ "source" ++ dq ++ ": [";
     "    " ++ dq ++ "import dipy.reconst.dti as dti\n" ++ dq ++ ",";
     "    " ++ dq ++ "from dipy.segment.mask import median_otsu\n" ++ dq ++ ",";
     "    " ++ dq ++ "\n" ++ dq ++ ",";
     "    " ++ dq ++ "dwi_data = dwi_img.get_data()\n" ++ dq ++ ",";
     "    " ++ dq ++ "dwi_data, dwi_mask = median_otsu(dwi_data, vol_idx=[0], numpass=1)  # Specify the volume index to the b0 volumes\n" ++ dq ++ ",";
     "    " ++ dq ++ "\n" ++ dq ++ ",";
     "    " ++ dq ++ "dti_model = dti.TensorModel(gtab)\n" ++ dq ++ ",";
     "    " ++ dq ++ "dti_fit = dti_model.fit(dwi_data, mask=dwi_mask)  # This step may take a while" ++ dq;
     "   ]";
     "  },";
     "  {";
     "   " ++ dq ++ "cell_type" ++ dq ++ ": " ++ dq ++ "markdown" ++ dq ++ ",";
     "   " ++ dq ++ "metadata" ++ dq ++ ": {},";
     "   " ++ dq ++ "source" ++ dq ++ ": [";
     "    " ++ dq ++ "We will perform tracking using a deterministic algorithm on tensor fields via `EuDX` [(Garyfallidis _et al._, 2012)](https://www.ncbi.nlm.nih.gov/pmc/articles/PMC3518823/). `EuDX` makes use of the primary direction of the diffusion tensor to propagate streamlines from voxel to voxel and a stopping criteria from the fractional anisotropy (FA). We will get the FA map and eigenvectors from our tensor fitting." ++ dq;
     "   ]";
     "  },";
     "  {";
     "   " ++ dq ++ "cell_type" ++ dq ++ ": " ++ dq ++ "code" ++ dq ++ ",";
     "   " ++ dq ++ "execution_count" ++ dq ++ ": 3,";
     "   " ++ dq ++ "metadata" ++ dq ++ ": {},";
     "   " ++ dq ++ "outputs" ++ dq ++ ": [],";
     "   " ++ dq ++ "source" ++ dq ++ ": [";
     "    " ++ dq ++ "fa_img = dti_fit.fa\n" ++ dq ++ ",";
     "    " ++ dq ++ "evecs_img = dti_fit.evecs" ++ dq;
     "   ]";
     "  },";
     "  {";
     "   " ++ dq ++ "cell_type" ++ dq ++ ": " ++ dq ++ "markdown" ++ dq ++ ",";
     "   " ++ dq ++ "metadata" ++ dq ++ ": {},";
     "   " ++ dq ++ "source" ++ dq ++ ": [";
     "    " ++ dq ++ "In the background of the image, the fitting may not be accurate as all of the measured signal is primarily noise and it is possible that values of NaNs (not a number) may be found in the FA map. We can remove these using `numpy` to find and set these voxels to 0." ++ dq;
     "   ]";
     "  },";
     "  {";
     "   " ++ dq ++ "cell_type" ++ dq ++ ": " ++ dq ++ "code" ++ dq ++ ",";
     "   " ++ dq ++ "execution_count" ++ dq ++ ": 4,";
     "   " ++ dq ++ "metadata" ++ dq ++ ": {},";
     "   " ++ dq ++ "outputs" ++ dq ++ ": [],";
     "   " ++ dq ++ "source" ++ dq ++ ": [";
     "    " ++ dq ++ "import numpy as np\n" ++ dq ++ ",";
     "    " ++ dq ++ "\n" ++ dq ++ ",";
     "    " ++ dq ++ "fa_img[np.isnan(fa_img)] = 0" ++ dq;
     "   ]";
     "  },";
     "  {";
     "   " ++ dq ++ "cell_type" ++ dq ++ ": " ++ dq ++ "markdown" ++ dq ++ ",";
     "   " ++ dq ++ "metadata" ++ dq ++ ": {},";
     "   " ++ dq ++ "source" ++ dq ++ ": [";
     "    " ++ dq ++ "One of the inputs of `EuDX` is the discretized voxel directions on a unit sphere. Therefore, it is necessary to discretize the eigenvectors before providing them to `EuDX`. We will use an evenly distributed sphere of 362 points using the `get_sphere` function." ++ dq;
     "   ]";
     "  },";
     "  {";
     "   " ++ dq ++ "cell_type" ++ dq ++ ": " ++ dq ++ "code" ++ dq ++ ",";
     "   " ++ dq ++ "execution_count" ++ dq ++ ": 6,";
     "   " ++ dq ++ "metadata" ++ dq ++ ": {},";
     "   " ++ dq ++ "outputs" ++ dq ++ ": [],";
     "   " ++ dq ++ "source" ++ dq ++ ": [";
     "    " ++ dq ++ "from dipy.data import get_sphere\n" ++ dq ++ ",";
     "    " ++ dq ++ "\n" ++ dq ++ ",";
     "    " ++ dq ++ "sphere = get_sphere('symmetric362')" ++ dq;
     "   ]";
     "  },";
     "  {";
     "   " ++ dq ++ "cell_type" ++ dq ++ ": " ++ dq ++ "markdown" ++ dq ++ ",";
     "   " ++ dq ++ "metadata" ++ dq ++ ": {},";
     "   " ++ dq ++ "source" ++ dq ++ ": [";
     "    " ++ dq ++ "We will determine the indices representing the discretized directions of the peaks by providing as input, our tensor model, the diffusion data, the sphere, and a mask to apply the processing to. Additionally, we will set the minimum angle between directions, the maximum number of peaks to return (1 for the tensor model), and the relative peak threshold (returning peaks greater than this value).\n" ++ dq ++ ",";
     "    " ++ dq ++ "\n" ++ dq ++ ",";
     "    " ++ dq ++ "_Note: This step may take a while to run._" ++ dq;
     "   ]";
     "  },";
     "  {";
     "   " ++ dq ++ "cell_type" ++ dq ++ ": " ++ dq ++ "code" ++ dq ++ ",";
     "   " ++ dq ++ "execution_count" ++ dq ++ ": 7,";
     "   " ++ dq ++ "metadata" ++ dq ++ ": {},";
     "   " ++ dq ++ "outputs" ++ dq ++ ": [],";
     "   " ++ dq ++ "source" ++ dq ++ ": [";
     "    " ++ dq ++ "from dipy.direction import peaks_from_model\n" ++ dq ++ ",";
     "    " ++ dq ++ "\n" ++ dq ++ ",";
     "    " ++ dq ++ "peak_indices = peaks_from_model(model=dti_model, data=dwi_data, sphere=sphere, relative_peak_threshold=.2, min_separation_angle=25, mask=dwi_mask, npeaks=2)" ++ dq;
     "   ]";
     "  },";
     "  {";
     "   " ++ dq ++ "cell_type" ++ dq ++ ": " ++ dq ++ "markdown" ++ dq ++ ",";
     "   " ++ dq ++ "metadata" ++ dq ++ ": {},";
     "   " ++ dq ++ "source" ++ dq ++ ": [";
     "    " ++ dq ++ "Additionally, we will apply a stopping criterion for our tracking based on the FA map. That is, we will stop our tracking when we reach a voxel where FA is below 0.2." ++ dq;
     "   ]";
     "  },";
     "  {";
     "   " ++ dq ++ "cell_type" ++ dq ++ ": " ++ dq ++ "code" ++ dq ++ ",";
     "   " ++ dq ++ "execution_count" ++ dq ++ ": 8,";
     "   " ++ dq ++ "metadata" ++ dq ++ ": {},";
     "   " ++ dq ++ "outputs" ++ dq ++ ": [],";
     "   " ++ dq ++ "source" ++ dq ++ ": [";
     "    " ++ dq ++ "from dipy.tracking.stopping_criterion import ThresholdStoppingCriterion\n" ++ dq ++ ",";
     "    " ++ dq ++ "\n" ++ dq ++ ",";
     "    " ++ dq ++ "stopping_criterion = ThresholdStoppingCriterion(fa_img, .2)" ++ dq;
     "   ]";
     "  },";
     "  {";
     "   " ++ dq ++ "cell_type" ++ dq ++ ": " ++ dq ++ "markdown" ++ dq ++ ",";
     "   " ++ dq ++ "metadata" ++ dq ++ ": {},";
     "   " ++ dq ++ "source" ++ dq ++ ": [";
     "    " ++ dq ++ "We will also need to specify where to \" ++ dq ++ "seed\" ++ dq ++ " (begin) the fiber tracking. Generally, the seeds chosen will depend on the pathways one is interested in modelling. In this example, we will create a seed mask from the FA map thresholding above our stopping criterion." ++ dq;
     "   ]";
     "  },";
     "  {";
     "   " ++ dq ++ "cell_type" ++ dq ++ ": " ++ dq ++ "code" ++ dq ++ ",";
     "   " ++ dq ++ "execution_count" ++ dq ++ ": 9,";
     "   " ++ dq ++ "metadata" ++ dq ++ ": {},";
     "   " ++ dq ++ "outputs" ++ dq ++ ": [],";
     "   " ++ dq ++ "source" ++ dq ++ ": [";
     "    " ++ dq ++ "from dipy.tracking import utils\n" ++ dq ++ ",";
     "    " ++ dq ++ "\n" ++ dq ++ ",";
     "    " ++ dq ++ "seed_mask = fa_img.copy()\n" ++ dq ++ ",";
     "    " ++ dq ++ "seed_mask[seed_mask>=0.2] = 1\n" ++ dq ++ ",";
     "    " ++ dq ++ "seed_mask[seed_mask<0.2] = 0\n" ++ dq ++ ",";
     "    " ++ dq ++ "\n" ++ dq ++ ",";
     "    " ++ dq ++ "seeds = utils.seeds_from_mask(seed_mask, affine=affine, density=1)" ++ dq;
     "   ]";
     "  },";
     "  {";
     "   " ++ dq ++ "cell_type" ++ dq ++ ": " ++ dq ++ "markdown" ++ dq ++ ",";
     "   " ++ dq ++ "metadata" ++ dq ++ ": {},";
     "   " ++ dq ++ "source" ++ dq ++ ": [";
     "    " ++ dq ++ "Now, we can apply the tracking algorithm! \n" ++ dq ++ ",";
     "    " ++ dq ++ "\n" ++ dq ++ ",";
     "    " ++ dq ++ "As mentioned previously, `EuDX` is the fiber tracking algorithm that we will be using. The most important parameters to include are the indices representing the discretized directions of the peaks (`peak_indices`), the stopping criterion, the seeds, the affine transformation, and the step sizes to take when tracking!" ++ dq;
     "   ]";
     "  },";
     "  {";
     "   " ++ dq ++ "cell_type" ++ dq ++ ": " ++ dq ++ "code" ++ dq ++ ",";
     "   " ++ dq ++ "execution_count" ++ dq ++ ": 10,";
     "   " ++ dq ++ "metadata" ++ dq ++ ": {},";
     "   " ++ dq ++ "outputs" ++ dq ++ ": [],";
     "   " ++ dq ++ "source" ++ dq ++ ": [";
     "    " ++ dq ++ "from dipy.tracking.local_tracking import LocalTracking\n" ++ dq ++ ",";
     "    " ++ dq ++ "from dipy.tracking.streamline import Streamlines\n" ++ dq ++ ",";
     "    " ++ dq ++ "\n" ++ dq ++ ",";
     "    " ++ dq ++ "# Initialize local tracking - computation happens in the next step.\n" ++ dq ++ ",";
     "    " ++ dq ++ "streamlines_generator = LocalTracking(peak_indices, stopping_criterion, seeds, affine=affine, step_size=.5)\n" ++ dq ++ ",";
     "    " ++ dq ++ "\n" ++ dq ++ ",";
     "    " ++ dq ++ "# Generate streamlines object\n" ++ dq ++ ",";
     "    " ++ dq ++ "streamlines = Streamlines(streamlines_generator)" ++ dq;
     "   ]";
     "  },";
     "  {";
     "   " ++ dq ++ "cell_type" ++ dq ++ ": " ++ dq ++ "markdown" ++ dq ++ ",";
     "   " ++ dq ++ "metadata" ++ dq ++ ": {},";
     "   " ++ dq ++ "source" ++ dq ++ ": [";
     "    " ++ dq ++ "We just created a deterministic set of streamlines using the `EuDX` algorithm mapping the human connectome (tractography). We can save the streamlines as a Trackvis file so it can be loaded into other software for visualization or further analysis. To do so, we need to save the tractogram state using `StatefulTractogram` and `save_trk` to save the file. Note that we will have to specify the space to save the tractogram in." ++ dq;
     "   ]";
     "  },";
     "  {";
     "   " ++ dq ++ "cell_type" ++ dq ++ ": " ++ dq ++ "code" ++ dq ++ ",";
     "   " ++ dq ++ "execution_count" ++ dq ++ ": 11,";
     "   " ++ dq ++ "metadata" ++ dq ++ ": {},";
     "   " ++ dq ++ "outputs" ++ dq ++ ": [],";
     "   " ++ dq ++ "source" ++ dq ++ ": [";
     "    " ++ dq ++ "from dipy.io.stateful_tractogram import Space, StatefulTractogram\n" ++ dq ++ ",";
     "    " ++ dq ++ "from dipy.io.streamline import save_trk\n" ++ dq ++ ",";
     "    " ++ dq ++ "\n" ++ dq ++ ",";
     "    " ++ dq ++ "sft = StatefulTractogram(streamlines, dwi_img, Space.RASMM)\n" ++ dq ++ ",";
     "    " ++ dq ++ "save_trk(sft, \" ++ dq ++ "tractogram_EuDX.trk\" ++ dq ++ ")" ++ dq;
     "   ]";
     "  },";
     "  {";
     "   " ++ dq ++ "cell_type" ++ dq ++ ": " ++ dq ++ "markdown" ++ dq ++ ",";
     "   " ++ dq ++ "metadata" ++ dq ++ ": {},";
     "   " ++ dq ++ "source" ++ dq ++ ": [";
     "    " ++ dq ++ "We can then generate the streamlines 3D scene using the `fury` python package,\n" ++ dq;
     "    " ++ dq ++ "and visualize the scene's contents with `matplotlib`." ++ dq;
     "   ]";
     "  },";
     "  {";
     "   " ++ dq ++ "cell_type" ++ dq ++ ": " ++ dq ++ "code" ++ dq ++ ",";
     "   " ++ dq ++ "execution_count" ++ dq ++ ": 1,";
     "   " ++ dq ++ "metadata" ++ dq ++ ": {},";
     "   " ++ dq ++ "outputs" ++ dq ++ ": [],";
     "   " ++ dq ++ "source" ++ dq ++ ": [";
     "    " ++ dq ++ "from dipy.io.streamline import load_tractogram\n" ++ dq ++ ",";
     "    " ++ dq ++ "from dipy.io.streamline import load_trk" ++ dq;
     "   ]";
     "  },";
     "  {";
     "   " ++ dq ++ "cell_type" ++ dq ++ ": " ++ dq ++ "code" ++ dq ++ ",";
     "   " ++ dq ++ "execution_count" ++ dq ++ ": 2,";
     "   " ++ dq ++ "metadata" ++ dq ++ ": {},";
     "   " ++ dq ++ "outputs" ++ dq ++ ": [],";
     "   " ++ dq ++ "source" ++ dq ++ ": [";
     "    " ++ dq ++ "# sft = load_tractogram('tractogram_EuDX.trk', 'same')\n" ++ dq ++ ",";
     "    " ++ dq ++ "sft = load_trk('tractogram_EuDX.trk', 'same')" ++ dq;
     "   ]";
     "  },";
     "  {";
     "   " ++ dq ++ "cell_type" ++ dq ++ ": " ++ dq ++ "code" ++ dq ++ ",";
     "   " ++ dq ++ "execution_count" ++ dq ++ ": 3,";
     "   " ++ dq ++ "metadata" ++ dq ++ ": {},";
     "   " ++ dq ++ "outputs" ++ dq ++ ": [],";
     "   " ++ dq ++ "source" ++ dq ++ ": [";
     "    " ++ dq ++ "sft.to_vox()\n" ++ dq ++ ",";
     "    " ++ dq ++ "streamlines = sft.streamlines" ++ dq;
     "   ]";
     "  },";
     "  {";
     "   " ++ dq ++ "cell_type" ++ dq ++ ": " ++ dq ++ "code" ++ dq ++ ",";
     "   " ++ dq ++ "execution_count" ++ dq ++ ": 4,";
     "   " ++ dq ++ "metadata" ++ dq ++ ": {},";
     "   " ++ dq ++ "source" ++ dq ++ ": [";
     "    " ++ dq ++ "from dipy.viz import window, actor, colormap\n" ++ dq ++ ",";
     "    " ++ dq ++ "\n" ++ dq ++ ",";
     "    " ++ dq ++ "# Prepare display objects\n" ++ dq ++ ",";
     "    " ++ dq ++ "# streamlines_actor = actor.line(streamlines, colormap.line_colors(streamlines))\n" ++ dq ++ ",";
     "    " ++ dq ++ "streamlines_actor = actor.line(streamlines)\n" ++ dq ++ ",";
     "    " ++ dq ++ "\n" ++ dq ++ ",";
     "    " ++ dq ++ "# Create 3D display\n" ++ dq ++ ",";
     "    " ++ dq ++ "scene = window.Scene()\n" ++ dq ++ ",";
     "    " ++ dq ++ "\n" ++ dq ++ ",";
     "    " ++ dq ++ "# Create the directory to save the results\n" ++ dq ++ ",";
     "    " ++ dq ++ "out_dir = '../../data/ds000221/derivatives/dwi/tractography/sub-%s/ses-01/dwi/' % subj\n" ++ dq ++ ",";
     "    " ++ dq ++ "\n" ++ dq ++ ",";
     "    " ++ dq ++ "if not os.path.exists(out_dir):\n" ++ dq ++ ",";
     "    " ++ dq ++ "    os.makedirs(out_dir)\n" ++ dq ++ ",";
     "    " ++ dq ++ "\n" ++ dq ++ ",";
     "    " ++ dq ++ "det_tractogram_eudx_scene_arr = window.snapshot(\n" ++ dq ++ ",";
     "    " ++ dq ++ "    scene,\n" ++ dq ++ ",";
     "    " ++ dq ++ "    fname=os.path.join(out_dir, 'tractogram_EuDX.png'),\n" ++ dq ++ ",";
     "    " ++ dq ++ "    size=(800, 800), offscreen=True)\n" ++ dq ++ ",";
     "    " ++ dq ++ "\n" ++ dq ++ ",";
     "    " ++ dq ++ "import matplotlib.pyplot as plt\n" ++ dq ++ ",";
     "    " ++ dq ++ "%matplotlib inline\n" ++ dq ++ ",";
     "    " ++ dq ++ "\n" ++ dq ++ ",";
     "    " ++ dq ++ "# Show the image\n" ++ dq ++ ",";
     "    " ++ dq ++ "fig, axes = plt.subplots()\n" ++ dq ++ ",";
     "    " ++ dq ++ "axes.imshow(det_tractogram_eudx_scene_arr, origin=\" ++ dq ++ "lower\" ++ dq ++ ")\n" ++ dq ++ ",";
     "    " ++ dq ++ "axes.axis(\" ++ dq ++ "off\" ++ dq ++ ")\n" ++ dq ++ ",";
     "    " ++ dq ++ "plt.show()" ++ dq;
     "   ]";
     "  },";
     "  {";
     "   " ++ dq ++ "cell_type" ++ dq ++ ": " ++ dq ++ "code" ++ dq ++ ",";
     "   " ++ dq ++ "execution_count" ++ dq ++ ": null,";
     "   " ++ dq ++ "metadata" ++ dq ++ ": {},";
     "   " ++ dq ++ "outputs" ++ dq ++ ": [],";
     "   " ++ dq ++ "source" ++ dq ++ ": []";
     "  }";
     " ],";
     " " ++ dq ++ "metadata" ++ dq ++ ": {";
     "  " ++ dq ++ "kernelspec" ++ dq ++ ": {";
     "   " ++ dq ++ "display_name" ++ dq ++ ": " ++ dq ++ "Python 3" ++ dq ++ ",";
     "   " ++ dq ++ "language" ++ dq ++ ": " ++ dq ++ "python" ++ dq ++ ",";
     "   " ++ dq ++ "name" ++ dq ++ ": " ++ dq ++ "python3" ++ dq;
     "  },";
     "  " ++ dq ++ "language_info" ++ dq ++ ": {";
     "   " ++ dq ++ "codemirror_mode" ++ dq ++ ": {";
     "    " ++ dq ++ "name" ++ dq ++ ": " ++ dq ++ "ipython" ++ dq ++ ",";
     "    " ++ dq ++ "version" ++ dq ++ ": 3";
     "   },";
     "   " ++ dq ++ "file_extension" ++ dq ++ ": " ++ dq ++ ".py" ++ dq ++ ",";
     "   " ++ dq ++ "mimetype" ++ dq ++ ": " ++ dq ++ "text/x-python" ++ dq ++ ",";
     "   " ++ dq ++ "name" ++ dq ++ ": " ++ dq ++ "python" ++ dq ++ ",";
     "   " ++ dq ++ "nbconvert_exporter" ++ dq ++ ": " ++ dq ++ "python" ++ dq ++ ",";
     "   " ++ dq ++ "pygments_lexer" ++ dq ++ ": " ++ dq ++ "ipython3" ++ dq ++ ",";
     "   " ++ dq ++ "version" ++ dq ++ ": " ++ dq ++ "3.7.4" ++ dq;
     "  }";
     " },";
     " " ++ dq ++ "nbformat" ++ dq ++ ": 4,";
     " " ++ dq ++ "nbformat_minor" ++ dq ++ ": 4";
     "}"].

End NotebookFile.

(** ** The episode on constrained spherical deconvolution

    The code blocks of the episode that load the data, estimate the response
    function and fit the model, each with the line of the episode file it
    starts on. *)

Module Episode.
Import Python Notebook.
Open Scope string_scope.

Definition block_load : cell := {|
  first_line := 53;
  source :=
    ["import os";
     "";
     "import nibabel as nib";
     "import numpy as np";
     "";
     "from bids.layout import BIDSLayout";
     "";
     "from dipy.core.gradients import gradient_table";
     "from dipy.data import default_sphere";
     "from dipy.io.gradients import read_bvals_bvecs";
     "from dipy.io.image import load_nifti";
     "";
     "";
     "dwi_layout = BIDSLayout('../../data/ds000221/derivatives/uncorrected_topup_eddy/', validate=False)";
     "t1_layout = BIDSLayout('../../data/ds000221/derivatives/uncorrected_topup_eddy_regT1/', validate=False)";
     "gradient_layout = BIDSLayout('../../data/ds000221/sub-010006/ses-01/dwi/', validate=False)";
     "";
     "subj = '010006'";
     "";
     "# Get the diffusion files";
     "dwi_fname = dwi_layout.get(subject=subj, suffix='dwi', extension='nii.gz', return_type='file')[0]";
     "bval_fname = gradient_layout.get(subject=subj, suffix='dwi', extension='bval', return_type='file')[0]";
     "bvec_fname = gradient_layout.get(subject=subj, suffix='dwi', extension='bvec', return_type='file')[0]";
     "";
     "# Get the anatomical file";
     "t1w_fname = t1_layout.get(subject=subj, extension='nii.gz', return_type='file')[0]";
     "";
     "data, affine = load_nifti(dwi_fname)";
     "";
     "bvals, bvecs = read_bvals_bvecs(bval_fname, bvec_fname)";
     "gtab = gradient_table(bvals, bvecs)"]
|}.

Definition block_response : cell := {|
  first_line := 105;
  source :=
    ["from dipy.reconst.csdeconv import auto_response";
     "";
     "response, ratio = auto_response(gtab, data, roi_radius=10, fa_thr=0.7)";
     "";
     "# Create the directory to save the results";
     "out_dir = '../../data/ds000221/derivatives/dwi/reconstruction/sub-%s/ses-01/dwi/' % subj";
     "";
     "if not os.path.exists(out_dir):";
     "    os.makedirs(out_dir)";
     "";
     "# Save the FRF";
     "np.savetxt(os.path.join(out_dir, 'frf.txt'), np.hstack([response[0], response[1]]))"]
|}.

Definition block_print_response : cell := {|
  first_line := 129;
  source :=
    ["print(response)"]
|}.

Definition block_print_ratio : cell := {|
  first_line := 146;
  source :=
    ["print(ratio)"]
|}.

Definition block_model : cell := {|
  first_line := 224;
  source :=
    ["from dipy.reconst.csdeconv import ConstrainedSphericalDeconvModel";
     "";
     "sh_order = 8";
     "csd_model = ConstrainedSphericalDeconvModel(gtab, response, sh_order=sh_order)"]
|}.

Definition block_fit : cell := {|
  first_line := 234;
  source :=
    ["csd_fit = csd_model.fit(data)"]
|}.

Definition block_odf : cell := {|
  first_line := 246;
  source :=
    ["csd_odf = csd_fit.odf(default_sphere)"]
|}.

(** The blocks in the order of the episode. *)
Definition computation : list cell :=
  [block_load; block_response; block_print_response; block_print_ratio;
   block_model; block_fit; block_odf].

End Episode.

(** * Theorems *)

(** ** Masked assignment, pointwise *)

Section MaskedAssignment.
Import Numpy.
Context {A : Type}.

Lemma zip_with_fmap_r {B C} (f : A → B → C) (g : A → B) (l : list A) :
  zip_with f l (g <$> l) = (λ x, f x (g x)) <$> l.
Proof. induction l as [|x l IH]; csimpl; [done | by rewrite IH]. Qed.

(** Assigning through a mask computed from the array itself is a map. *)
Lemma setitem_mask_self (p : A → bool) (v : A) (a : ndarray3 A) :
  setitem_mask a (map3 p a) v = map3 (λ x, if p x then v else x) a.
Proof.
  unfold setitem_mask, map3.
  induction a as [|plane a IH]; csimpl; [done |]. rewrite IH. f_equal.
  clear IH. induction plane as [|row plane IH]; csimpl; [done |].
  rewrite IH. f_equal. apply zip_with_fmap_r.
Qed.

Lemma getitem3_map3 {B} (f : A → B) (a : ndarray3 A) (i j k : nat) :
  getitem3 (map3 f a) i j k = f <$> getitem3 a i j k.
Proof.
  unfold getitem3, map3. rewrite !list_lookup_fmap.
  destruct (a !! i) as [plane|]; simpl; [|done].
  rewrite list_lookup_fmap. destruct (plane !! j) as [row|]; simpl; [|done].
  by rewrite list_lookup_fmap.
Qed.

Lemma map3_map3 {B C} (f : A → B) (g : B → C) (a : ndarray3 A) :
  map3 g (map3 f a) = map3 (g ∘ f) a.
Proof.
  unfold map3. rewrite <- list_fmap_compose. apply list_fmap_ext.
  intros _ plane _. simpl. rewrite <- list_fmap_compose. apply list_fmap_ext.
  intros _ row _. simpl. by rewrite <- list_fmap_compose.
Qed.

Lemma map3_ext (f g : A → A) (a : ndarray3 A) :
  (∀ x, f x = g x) → map3 f a = map3 g a.
Proof.
  intros H. unfold map3. apply list_fmap_ext. intros _ plane _.
  apply list_fmap_ext. intros _ row _. apply list_fmap_ext. auto.
Qed.

End MaskedAssignment.

(** ** The FA map: sanitization *)

Module FAFacts.
Import Numpy FA.

Lemma sanitize_map3 (fa_img : ndarray3 float64) :
  sanitize fa_img = map3 sanitize_voxel fa_img.
Proof. unfold sanitize, np_isnan. by rewrite setitem_mask_self. Qed.

Lemma sanitize_voxel_idem (x : float64) :
  sanitize_voxel (sanitize_voxel x) = sanitize_voxel x.
Proof. by destruct x. Qed.

(** C1, as stated, fails on the code: a voxel holding [+inf] is not finite,
    and [np.isnan] does not select it, so it is not replaced by zero. *)
Lemma sanitize_keeps_infinity :
  ¬ (∀ (fa_img : ndarray3 float64) (i j k : nat) (x : float64),
       getitem3 fa_img i j k = Some x → isfinite x = false →
       getitem3 (sanitize fa_img) i j k = Some f_0).
Proof.
  intros H.
  specialize (H [[[S754_infinity false]]] 0%nat 0%nat 0%nat
                (S754_infinity false) eq_refl eq_refl).
  vm_compute in H. discriminate H.
Qed.

(** C1, amended: sanitization replaces every NaN voxel with zero, leaves
    every other voxel (the infinities included) unchanged, keeps the shape
    of the array, and is idempotent. *)
Theorem sanitize_nan_only (fa_img : ndarray3 float64) :
  (∀ i j k,
     getitem3 (sanitize fa_img) i j k =
     (λ x, if isnan x then f_0 else x) <$> getitem3 fa_img i j k)
  ∧ sanitize (sanitize fa_img) = sanitize fa_img.
Proof.
  split.
  - intros i j k. rewrite sanitize_map3. apply getitem3_map3.
  - rewrite !sanitize_map3, map3_map3. apply map3_ext.
    intros x. apply sanitize_voxel_idem.
Qed.

End FAFacts.

(** ** The response-function file: its values *)

Module ResponseFacts.
Import Numpy Response.

(** C8, as stated, fails on the code: for the response printed in the
    episode the file does not hold six values (two 3-vectors). *)
Lemma frf_txt_not_six_values :
  length (file_values (frf_txt printed_response)) ≠ 6%nat.
Proof. vm_compute. lia. Qed.

(** C8, amended: the response-function file holds exactly four scalar values,
    one per line: the three eigenvalues of the response tensor followed by
    the mean S0 signal. *)
Theorem frf_txt_four_values (r : response) :
  frf_txt r = [[(evals r).1.1]; [(evals r).1.2]; [(evals r).2]; [S0 r]]
  ∧ length (file_values (frf_txt r)) = 4%nat.
Proof. destruct r as [[[l1 l2] l3] s0]. split; reflexivity. Qed.

End ResponseFacts.

(** ** The notebook: the typo and the missing import *)

Module NotebookFacts.
Import Python Notebook.
Open Scope string_scope.

(** The offending line: after the complete keyword argument [subject=subj]
    comes the name [suffix], with no comma between them. *)
Lemma locator_line_12_tokens :
  (ts ← tokenize (take 1 (drop 11 (source cell_load)));
   Ok (take 11 (fst <$> ts)))
  = Ok [NAME "bval"; OP "="; NAME "layout"; OP "."; NAME "get"; OP "(";
        NAME "subject"; OP "="; NAME "subj"; NAME "suffix"; OP "="].
Proof. vm_compute. reflexivity. Qed.

(** The same typo is on the next line: with only line 12 repaired the cell
    still raises, at line 13. *)
Lemma locator_line_13_too :
  parse (alter add_comma 11%nat (source cell_load)) = SyntaxError 13.
Proof. vm_compute. reflexivity. Qed.

(** The repair touches no other cell. *)
Lemma with_commas_elsewhere :
  Forall (λ c, with_commas c = c) (tail notebook).
Proof.
  unfold notebook. simpl tail.
  repeat (apply Forall_cons; split; [vm_compute; reflexivity |]).
  apply Forall_nil. done.
Qed.

(** C9: the dataset-locator cell, as written, is not a Python program.
    Reading it raises a syntax error at its line 12 (line 30 of the notebook
    file), so running the cell raises before any statement of it runs, and
    so does running the notebook from the top; with the missing commas
    inserted the cell is a Python program. *)
Theorem locator_cell_syntax_error :
  parse (source cell_load) = SyntaxError 12
  ∧ file_line cell_load 12 = 30%nat
  ∧ (∀ oracle ns, run_cell oracle ns cell_load = SyntaxError 12)
  ∧ (∀ oracle, run_cells oracle 0 ∅ notebook = (0%nat, SyntaxError 12))
  ∧ (∃ ss, parse (source (with_commas cell_load)) = Ok ss).
Proof.
  assert (H : parse (source cell_load) = SyntaxError 12)
    by (vm_compute; reflexivity).
  split; [exact H |]. split; [reflexivity |].
  assert (R : ∀ oracle ns, run_cell oracle ns cell_load = SyntaxError 12).
  { intros oracle ns. unfold run_cell. rewrite H. reflexivity. }
  split; [exact R |]. split.
  - intros oracle. vm_compute. reflexivity.
  - eexists. vm_compute. reflexivity.
Qed.

(** C10: with the missing commas inserted, running the notebook from the top
    passes the first thirteen code cells and raises [NameError] for [os] in
    the fourteenth, the visualization cell, whatever the conditions evaluate
    to; no statement of any cell binds the name [os]. *)
Theorem visualization_cell_name_error (oracle : expr → bool) :
  run_cells oracle 0 ∅ notebook_with_commas = (13%nat, NameError "os")
  ∧ notebook_with_commas !! 13%nat = Some cell_visualize
  ∧ Forall (λ c, ∃ names, cell_binds c = Ok names ∧ "os" ∉ names)
           notebook_with_commas.
Proof.
  split; [vm_compute; reflexivity |]. split; [reflexivity |].
  unfold notebook_with_commas, notebook.
  repeat (apply Forall_cons; split;
          [eexists; split; [vm_compute; reflexivity |];
           apply (bool_decide_unpack _); vm_compute; reflexivity |]).
  apply Forall_nil. done.
Qed.

(** Where the visualization cell raises: cut after its line 12 it runs, and
    with the [if] statement of lines 13 and 14 it raises, in the test of the
    [if] (line 268 of the notebook file). *)
Lemma visualization_cell_raises_at_if (oracle : expr → bool) :
  outcome (run_cells oracle 0 ∅
             (take 13 notebook_with_commas ++ [first_lines 12 cell_visualize])).2
  = Ok ()
  ∧ outcome (run_cells oracle 0 ∅
               (take 13 notebook_with_commas ++ [first_lines 14 cell_visualize])).2
    = NameError "os"
  ∧ source cell_visualize !! 12%nat = Some "if not os.path.exists(out_dir):"
  ∧ file_line cell_visualize 13 = 268%nat.
Proof.
  split; [vm_compute; reflexivity |].
  split; [vm_compute; reflexivity |].
  split; [vm_compute; reflexivity |]. reflexivity.
Qed.

End NotebookFacts.

Module GeometryFacts.
Import Geometry.

Lemma dot_comm (u v : vec3) : (dot u v == dot v u)%Q.
Proof. destruct u as [[a b] c], v as [[x y] z]. simpl. ring. Qed.

End GeometryFacts.

(** ** Seed generation: how many seeds, and where *)

Module SeedsFacts.
Import Numpy Geometry Seeds.

Lemma length_bind_const {X Y} (f : X → list Y) (c : nat) (l : list X) :
  (∀ x, length (f x) = c) → length (l ≫= f) = (length l * c)%nat.
Proof.
  intros Hf. induction l as [|x l IH]; [done |].
  rewrite bind_cons, length_app, Hf, IH. simpl. lia.
Qed.

Lemma length_offsets (d : nat) : length (offsets d) = d.
Proof. unfold offsets. by rewrite length_fmap, length_seq. Qed.

Lemma length_grid (d : nat) : length (grid d) = (d ^ 3)%nat.
Proof.
  unfold grid.
  rewrite (length_bind_const _ (d * d)%nat), length_offsets; [simpl; lia |].
  intros x. rewrite (length_bind_const _ d), length_offsets; [done |].
  intros y. rewrite (length_bind_const _ 1%nat), length_offsets; [lia | done].
Qed.

Lemma length_where1 (i j k : nat) (row : list bool) :
  length (where1 i j k row) = length (filter (λ b, b = true) row).
Proof.
  revert k. induction row as [|b row IH]; intros k; [done |].
  cbn [where1]. rewrite length_app, IH. destruct b.
  - rewrite filter_cons_True by done. done.
  - rewrite filter_cons_False by done. done.
Qed.

Lemma length_where2 (i j : nat) (plane : list (list bool)) :
  length (where2 i j plane) = length (filter (λ b, b = true) (concat plane)).
Proof.
  revert j. induction plane as [|row plane IH]; intros j; [done |].
  cbn [where2 concat].
  rewrite length_app, filter_app, length_app, IH, length_where1. done.
Qed.

Lemma length_argwhere (m : ndarray3 bool) : length (argwhere m) = count_true m.
Proof.
  unfold argwhere, count_true. generalize 0%nat.
  induction m as [|plane m IH]; intros i; [done |].
  cbn [where3 concat]. rewrite concat_app, filter_app, !length_app.
  rewrite IH, length_where2. done.
Qed.

(** [argwhere] lists exactly the [True] voxels. *)
Lemma elem_of_where1 (i j k0 : nat) (row : list bool) (v : nat * nat * nat) :
  v ∈ where1 i j k0 row ↔
  ∃ n, v = (i, j, (k0 + n)%nat) ∧ row !! n = Some true.
Proof.
  revert k0. induction row as [|b row IH]; intros k0; cbn [where1].
  - split; [by intros ?%elem_of_nil | by intros (n & _ & ?)].
  - rewrite elem_of_app, IH. split.
    + intros [H | (n & -> & Hn)].
      * destruct b; [| by apply elem_of_nil in H].
        apply list_elem_of_singleton in H as ->. exists 0%nat.
        by rewrite Nat.add_0_r.
      * exists (S n). split; [f_equal; lia | done].
    + intros ([|n] & -> & Hn).
      * left. injection Hn as ->. rewrite Nat.add_0_r. by left.
      * right. exists n. split; [f_equal; lia | done].
Qed.

Lemma elem_of_where2 (i j0 : nat) (plane : list (list bool))
    (v : nat * nat * nat) :
  v ∈ where2 i j0 plane ↔
  ∃ n k row, v = (i, (j0 + n)%nat, k) ∧ plane !! n = Some row
             ∧ row !! k = Some true.
Proof.
  revert j0. induction plane as [|row plane IH]; intros j0; cbn [where2].
  - split; [by intros ?%elem_of_nil | by intros (n & k & r & _ & ? & _)].
  - rewrite elem_of_app, IH, elem_of_where1. split.
    + intros [(k & -> & Hk) | (n & k & r & -> & Hn & Hk)].
      * exists 0%nat, k, row. by rewrite Nat.add_0_r.
      * exists (S n), k, r. split; [do 2 f_equal; lia | done].
    + intros ([|n] & k & r & -> & Hn & Hk).
      * left. injection Hn as ->. exists k. by rewrite Nat.add_0_r.
      * right. exists n, k, r. split; [do 2 f_equal; lia | done].
Qed.

Lemma elem_of_where3 (i0 : nat) (m : ndarray3 bool) (v : nat * nat * nat) :
  v ∈ where3 i0 m ↔
  ∃ n j k, v = ((i0 + n)%nat, j, k) ∧ getitem3 m n j k = Some true.
Proof.
  revert i0. induction m as [|plane m IH]; intros i0; cbn [where3].
  - split; [by intros ?%elem_of_nil | by intros (n & j & k & _ & ?)].
  - rewrite elem_of_app, IH, elem_of_where2. split.
    + intros [(j & k & row & -> & Hj & Hk) | (n & j & k & -> & H)].
      * exists 0%nat, j, k. rewrite Nat.add_0_r. split; [done |].
        unfold getitem3. simpl. by rewrite Hj.
      * exists (S n), j, k. split; [do 2 f_equal; lia | done].
    + intros ([|n] & j & k & -> & H).
      * left. unfold getitem3 in H. simpl in H.
        destruct (plane !! j) as [row|] eqn:Hj; [| done].
        exists j, k, row. by rewrite Nat.add_0_r.
      * right. exists n, j, k. split; [do 2 f_equal; lia | done].
Qed.

Lemma elem_of_argwhere (m : ndarray3 bool) (i j k : nat) :
  (i, j, k) ∈ argwhere m ↔ getitem3 m i j k = Some true.
Proof.
  unfold argwhere. rewrite elem_of_where3. split.
  - by intros (n & j' & k' & [= -> -> ->] & H).
  - intros H. by exists i, j, k.
Qed.


(** The [True] voxels come in index order. *)
Lemma sorted_where1 (i j k0 : nat) (row : list bool) :
  StronglySorted index_lt (where1 i j k0 row).
Proof.
  revert k0. induction row as [|b row IH]; intros k0; cbn [where1].
  - constructor.
  - apply StronglySorted_app_2; [| | apply IH].
    + intros u v Hu (n & -> & _)%elem_of_where1.
      destruct b; [| by apply elem_of_nil in Hu].
      apply list_elem_of_singleton in Hu as ->. simpl. lia.
    + destruct b; repeat constructor.
Qed.

Lemma sorted_where2 (i j0 : nat) (plane : list (list bool)) :
  StronglySorted index_lt (where2 i j0 plane).
Proof.
  revert j0. induction plane as [|row plane IH]; intros j0; cbn [where2].
  - constructor.
  - apply StronglySorted_app_2; [| apply sorted_where1 | apply IH].
    intros u v (k & -> & _)%elem_of_where1
           (n & k' & r & -> & _)%elem_of_where2.
    simpl. lia.
Qed.

Lemma sorted_argwhere (m : ndarray3 bool) :
  StronglySorted index_lt (argwhere m).
Proof.
  unfold argwhere. generalize 0%nat.
  induction m as [|plane m IH]; intros i0; cbn [where3].
  - constructor.
  - apply StronglySorted_app_2; [| apply sorted_where2 | apply IH].
    intros u v (n & k & r & -> & _)%elem_of_where2
           (n' & j' & k' & -> & _)%elem_of_where3.
    simpl. lia.
Qed.

(** The offsets: strictly inside the voxel, each the midpoint of its part. *)
Lemma offset_eq (d a : nat) :
  (0 < d)%nat →
  (offset d a ==
   (inject_Z (2 * Z.of_nat a + 1) / inject_Z (2 * Z.of_nat d)) - (1 # 2))%Q.
Proof.
  intros Hd. unfold offset. rewrite Qmake_Qdiv.
  replace (Z.pos (Pos.of_nat (2 * d))) with (2 * Z.of_nat d)%Z; [reflexivity |].
  lia.
Qed.

Lemma offset_inside (d a : nat) :
  (a < d)%nat →
  (-(1 # 2) < offset d a)%Q ∧ (offset d a < 1 # 2)%Q
  ∧ (offset d a ==
     ((-(1 # 2) + inject_Z (Z.of_nat a) / inject_Z (Z.of_nat d))
      + (-(1 # 2) + inject_Z (Z.of_nat a + 1) / inject_Z (Z.of_nat d)))
     / 2)%Q.
Proof.
  intros Ha. assert (Hd : (0 < d)%nat) by lia.
  assert (Hq : ¬ (inject_Z (Z.of_nat d) == 0)%Q).
  { unfold Qeq. simpl. lia. }
  assert (Hpos : (0 < inject_Z (Z.of_nat d))%Q).
  { unfold Qlt. simpl. lia. }
  assert (E : (offset d a ==
               (inject_Z (Z.of_nat a) + (1 # 2)) / inject_Z (Z.of_nat d)
               - (1 # 2))%Q).
  { rewrite (offset_eq d a Hd). rewrite !inject_Z_plus, !inject_Z_mult.
    field. exact Hq. }
  assert (Ha' : (inject_Z (Z.of_nat a) + 1 <= inject_Z (Z.of_nat d))%Q).
  { rewrite <- (inject_Z_plus _ 1). rewrite <- Zle_Qle. lia. }
  assert (Ha0 : (0 <= inject_Z (Z.of_nat a))%Q).
  { change 0%Q with (inject_Z 0). rewrite <- Zle_Qle. lia. }
  split; [| split].
  - rewrite E.
    assert (0 < (inject_Z (Z.of_nat a) + (1 # 2)) / inject_Z (Z.of_nat d))%Q.
    { apply Qlt_shift_div_l; [exact Hpos |]. lra. }
    lra.
  - rewrite E.
    assert ((inject_Z (Z.of_nat a) + (1 # 2)) / inject_Z (Z.of_nat d) < 1)%Q.
    { apply Qlt_shift_div_r; [exact Hpos |]. lra. }
    lra.
  - rewrite E. rewrite inject_Z_plus. field. exact Hq.
Qed.

Lemma elem_of_offsets (d : nat) (x : Q) :
  x ∈ offsets d ↔ ∃ a, (a < d)%nat ∧ x = offset d a.
Proof.
  unfold offsets. rewrite list_elem_of_fmap. split.
  - intros (a & -> & Ha%elem_of_seq). exists a. split; [lia | done].
  - intros (a & Ha & ->). exists a. split; [done |]. apply elem_of_seq. lia.
Qed.

Lemma elem_of_grid (d : nat) (g : vec3) :
  g ∈ grid d ↔
  ∃ a b c, (a < d ∧ b < d ∧ c < d)%nat ∧ g = (offset d a, offset d b, offset d c).
Proof.
  unfold grid. rewrite list_elem_of_bind. split.
  - intros (z & (y & (x & Hg & Hx)%list_elem_of_bind & Hy)%list_elem_of_bind & Hz).
    apply list_elem_of_singleton in Hg as ->.
    apply elem_of_offsets in Hx as (a & Ha & ->).
    apply elem_of_offsets in Hy as (b & Hb & ->).
    apply elem_of_offsets in Hz as (c & Hc & ->).
    by exists a, b, c.
  - intros (a & b & c & (Ha & Hb & Hc) & ->).
    exists (offset d c). split; [| apply elem_of_offsets; eauto].
    apply list_elem_of_bind. exists (offset d b).
    split; [| apply elem_of_offsets; eauto].
    apply list_elem_of_bind. exists (offset d a).
    split; [by apply list_elem_of_singleton | apply elem_of_offsets; eauto].
Qed.

(** A list of blocks of one length: block [n] is where it is counted. *)
Lemma bind_block {X Y} (f : X → list Y) (c : nat) (l : list X) (n : nat) (x : X) :
  (∀ x, length (f x) = c) → l !! n = Some x →
  take c (drop (n * c) (l ≫= f)) = f x.
Proof.
  intros Hf. revert n. induction l as [|y l IH]; intros n Hn; [done |].
  rewrite bind_cons. destruct n as [|n].
  - injection Hn as ->. rewrite Nat.mul_0_l, drop_0.
    by rewrite take_app_length' by done.
  - simpl in Hn. replace (S n * c)%nat with (length (f y) + n * c)%nat
      by (rewrite Hf; lia).
    rewrite drop_app_add. by apply IH.
Qed.

(** Two of the three voxels of a row, two seeds per voxel and axis: sixteen
    seeds, the eight of voxel [(0, 0, 0)] before the eight of voxel
    [(0, 0, 2)], in scanner millimetres. *)
Lemma seeds_from_mask_example :
  reduced <$> seeds_from_mask [[[true; false; true]]] demo_affine 2
  = [(19 # 2, 39 # 2, 59 # 2); (21 # 2, 39 # 2, 59 # 2);
     (19 # 2, 41 # 2, 59 # 2); (21 # 2, 41 # 2, 59 # 2);
     (19 # 2, 39 # 2, 61 # 2); (21 # 2, 39 # 2, 61 # 2);
     (19 # 2, 41 # 2, 61 # 2); (21 # 2, 41 # 2, 61 # 2);
     (19 # 2, 39 # 2, 67 # 2); (21 # 2, 39 # 2, 67 # 2);
     (19 # 2, 41 # 2, 67 # 2); (21 # 2, 41 # 2, 67 # 2);
     (19 # 2, 39 # 2, 69 # 2); (21 # 2, 39 # 2, 69 # 2);
     (19 # 2, 41 # 2, 69 # 2); (21 # 2, 41 # 2, 69 # 2)]%Q.
Proof. vm_compute. reflexivity. Qed.

(** C4: for every binary mask, every affine and every density [d], seed
    generation yields exactly [d^3 * |mask|] seed points, and they are in
    physical space: a point is a seed exactly when it is the image, under the
    affine (matrix [r], translation [t]), of one of the [d^3] sample points
    of a [True] voxel of the mask.  The sample points lie strictly inside
    the voxel, at the midpoints of its [d] equal parts along each axis.  The
    seeds come voxel after voxel in index order of the mask, [d^3] for each.
    Being a function of the mask, the affine and the density, the sequence
    is determined by them. *)
Theorem seeds_from_mask_count (mask : ndarray3 bool) (d : nat)
    (r11 r12 r13 r21 r22 r23 r31 r32 r33 t1 t2 t3 : Q) :
  let A := {| rows := ((r11, r12, r13), (r21, r22, r23), (r31, r32, r33));
              translation := (t1, t2, t3) |} in
  let physical := λ p : vec3,
    let '(x, y, z) := p in
    (r11 * x + r12 * y + r13 * z + t1,
     r21 * x + r22 * y + r23 * z + t2,
     r31 * x + r32 * y + r33 * z + t3)%Q in
  let sample := λ (v : nat * nat * nat) (a b c : nat),
    let '(i, j, k) := v in
    (inject_Z (Z.of_nat i) + offset d a,
     inject_Z (Z.of_nat j) + offset d b,
     inject_Z (Z.of_nat k) + offset d c)%Q in
  let seeds := seeds_from_mask mask A d in
  length seeds = (d ^ 3 * count_true mask)%nat
  ∧ (∀ s, s ∈ seeds ↔
          ∃ i j k a b c,
            getitem3 mask i j k = Some true ∧ (a < d ∧ b < d ∧ c < d)%nat
            ∧ s = physical (sample (i, j, k) a b c))
  ∧ (∀ a, (a < d)%nat →
          (-(1 # 2) < offset d a)%Q ∧ (offset d a < 1 # 2)%Q
          ∧ (offset d a ==
             ((-(1 # 2) + inject_Z (Z.of_nat a) / inject_Z (Z.of_nat d))
              + (-(1 # 2) + inject_Z (Z.of_nat a + 1) / inject_Z (Z.of_nat d)))
             / 2)%Q)
  ∧ StronglySorted index_lt (argwhere mask)
  ∧ (∀ i j k, (i, j, k) ∈ argwhere mask ↔ getitem3 mask i j k = Some true)
  ∧ (∀ n v, argwhere mask !! n = Some v →
            ∀ s, s ∈ take (d ^ 3) (drop (n * d ^ 3) seeds) ↔
                 ∃ a b c, (a < d ∧ b < d ∧ c < d)%nat
                          ∧ s = physical (sample v a b c)).
Proof.
  intros A physical sample seeds.
  assert (Hblock : ∀ v s,
    s ∈ grid d ≫= (λ g, [apply_affine A (vadd (voxel_centre v) g)]) ↔
    ∃ a b c, (a < d ∧ b < d ∧ c < d)%nat ∧ s = physical (sample v a b c)).
  { intros [[i j] k] s. rewrite list_elem_of_bind. split.
    - intros (g & Hs & (a & b & c & Hd & ->)%elem_of_grid).
      apply list_elem_of_singleton in Hs as ->. by exists a, b, c.
    - intros (a & b & c & Hd & ->).
      exists (offset d a, offset d b, offset d c).
      split; [by apply list_elem_of_singleton |].
      apply elem_of_grid. by exists a, b, c. }
  assert (Hlen : ∀ v,
    length (grid d ≫= (λ g, [apply_affine A (vadd (voxel_centre v) g)]))
    = (d ^ 3)%nat).
  { intros v. rewrite (length_bind_const _ 1%nat), length_grid; [lia | done]. }
  split; [| split; [| split; [| split; [| split]]]].
  - unfold seeds, seeds_from_mask.
    rewrite (length_bind_const _ (d ^ 3)%nat), length_argwhere; [lia | exact Hlen].
  - intros s. unfold seeds, seeds_from_mask. rewrite list_elem_of_bind. split.
    + intros ([[i j] k] & Hs & Hv). apply Hblock in Hs as (a & b & c & Hd & ->).
      apply elem_of_argwhere in Hv. by exists i, j, k, a, b, c.
    + intros (i & j & k & a & b & c & Hm & Hd & ->).
      exists (i, j, k). split; [| by apply elem_of_argwhere].
      apply Hblock. by exists a, b, c.
  - apply offset_inside.
  - apply sorted_argwhere.
  - apply elem_of_argwhere.
  - intros n v Hn s. unfold seeds, seeds_from_mask.
    rewrite (bind_block _ (d ^ 3)%nat _ n v Hlen Hn). apply Hblock.
Qed.

End SeedsFacts.

(** ** Peak extraction: count, separation, ranking *)

Module PeaksFacts.
Import Numpy Geometry GeometryFacts Peaks.

#[global] Instance stronger_total : Total stronger.
Proof.
  intros p q. unfold stronger. rewrite !Qle_bool_iff.
  destruct (Qlt_le_dec (magnitude p) (magnitude q)) as [H|H]; [right | left].
  - by apply Qlt_le_weak.
  - done.
Qed.

#[global] Instance stronger_trans : Transitive stronger.
Proof.
  intros p q r. unfold stronger. rewrite !Qle_bool_iff.
  intros H1 H2. eapply Qle_trans; eauto.
Qed.

Lemma StronglySorted_sublist {A} (R : relation A) (l k : list A) :
  l `sublist_of` k → StronglySorted R k → StronglySorted R l.
Proof.
  induction 1 as [|x l k Hs IH|x l k Hs IH]; intros Hk; [done | |].
  - apply StronglySorted_inv in Hk as [Hk Hx]. constructor; [by apply IH |].
    rewrite Forall_forall in *. intros y Hy. apply Hx.
    by eapply elem_of_sublist.
  - apply StronglySorted_inv in Hk as [Hk _]. by apply IH.
Qed.

Lemma StronglySorted_lookup {A} (R : relation A) (l : list A) (i j : nat) x y :
  StronglySorted R l → (i < j)%nat → l !! i = Some x → l !! j = Some y → R x y.
Proof.
  intros Hl. revert i j. induction Hl as [|a l Hl IH Ha]; intros i j Hij Hi Hj.
  - by rewrite lookup_nil in Hi.
  - destruct j as [|j]; [lia |]. destruct i as [|i]; simpl in *.
    + injection Hi as ->. rewrite Forall_forall in Ha. apply Ha.
      by eapply list_elem_of_lookup_2.
    + eapply IH; [| done | done]. lia.
Qed.

Section PeakDirectionsFacts.
Variable sphere : list vec3.
Variable cos_alpha : Q.
Variable theta : Q.
Variable npeaks : nat.

Local Abbreviation closer := (closer sphere cos_alpha).
Local Abbreviation suppress := (suppress sphere cos_alpha).
Local Abbreviation thresholded := (thresholded theta).
Local Abbreviation retained := (retained sphere cos_alpha theta).
Local Abbreviation peak_directions := (peak_directions sphere cos_alpha theta npeaks).
Local Abbreviation peaks_from_model := (peaks_from_model sphere cos_alpha theta npeaks).
Local Abbreviation pairwise_separated := (pairwise_separated sphere cos_alpha).
Local Abbreviation apart := (apart sphere cos_alpha).

(** The angle between two directions does not depend on their order. *)
Lemma closer_sym (i j : nat) : closer i j = closer j i.
Proof.
  unfold Peaks.closer. f_equal. apply eq_true_iff_eq.
  rewrite !Qle_bool_iff. by rewrite (dot_comm (vertex sphere i)).
Qed.

Lemma suppress_sublist (kept l : list peak) : suppress kept l `sublist_of` l.
Proof.
  revert kept. induction l as [|p l IH]; intros kept; simpl; [done |].
  destruct (existsb _ kept); by constructor.
Qed.

(** What suppression keeps is apart from what was kept before. *)
Lemma suppress_apart_kept (kept l : list peak) :
  Forall (λ p, Forall (λ q, apart q p) kept) (suppress kept l).
Proof.
  revert kept. induction l as [|p l IH]; intros kept; simpl; [done |].
  destruct (existsb _ kept) eqn:E; [apply IH |].
  constructor.
  - rewrite Forall_forall. intros q Hq. unfold apart.
    destruct (closer _ _) eqn:C; [| done].
    assert (existsb (λ q, closer (direction q) (direction p)) kept = true);
      [| congruence].
    apply existsb_exists. exists q. split; [by apply list_elem_of_In | done].
  - eapply Forall_impl; [apply (IH (p :: kept)) |].
    intros q Hq. by apply Forall_inv_tail in Hq.
Qed.

Lemma suppress_StronglySorted (kept l : list peak) :
  StronglySorted apart (suppress kept l).
Proof.
  revert kept. induction l as [|p l IH]; intros kept; simpl; [constructor |].
  destruct (existsb _ kept); [apply IH |].
  constructor; [apply IH |].
  eapply Forall_impl; [apply (suppress_apart_kept (p :: kept)) |].
  intros q Hq. by apply Forall_inv in Hq.
Qed.

Lemma StronglySorted_pairwise (out : list peak) :
  StronglySorted apart out → pairwise_separated out.
Proof.
  intros Hs i j p q Hij Hi Hj.
  destruct (decide (i < j)%nat) as [Hlt|Hge].
  - exact (StronglySorted_lookup _ _ _ _ _ _ Hs Hlt Hi Hj).
  - rewrite closer_sym.
    refine (StronglySorted_lookup _ _ j i _ _ Hs _ Hj Hi). lia.
Qed.

(** A candidate that suppression drops is within the separation angle of a
    stronger peak that was kept. *)
Lemma suppress_dropped (kept l : list peak) (p : peak) :
  StronglySorted stronger l →
  Forall (λ q, Forall (stronger q) l) kept →
  p ∈ l →
  p ∈ suppress kept l
  ∨ ∃ q, (q ∈ kept ∨ q ∈ suppress kept l) ∧ stronger q p
         ∧ closer (direction q) (direction p) = true.
Proof.
  revert kept. induction l as [|a l IH]; intros kept Hl Hk Hp.
  - by apply elem_of_nil in Hp.
  - apply StronglySorted_inv in Hl as [Hl Ha]. simpl.
    assert (Hk' : Forall (λ q, Forall (stronger q) l) kept).
    { eapply Forall_impl; [exact Hk |]. intros q Hq. by apply Forall_inv_tail in Hq. }
    destruct (existsb _ kept) eqn:E.
    + apply elem_of_cons in Hp as [-> | Hp].
      * apply existsb_exists in E as (q & Hq & C). right. exists q.
        apply list_elem_of_In in Hq. split; [by left |]. split; [| done].
        rewrite Forall_forall in Hk. specialize (Hk q Hq).
        by apply Forall_inv in Hk.
      * apply (IH kept Hl Hk' Hp).
    + apply elem_of_cons in Hp as [-> | Hp]; [left; by left |].
      destruct (IH (a :: kept) Hl (Forall_cons_2 _ _ _ Ha Hk') Hp)
        as [Hin | (q & Hq & Hs & C)].
      * left. by right.
      * right. exists q. split; [| done].
        destruct Hq as [Hq | Hq]; [| right; by right].
        apply elem_of_cons in Hq as [-> | Hq]; [right; by left | by left].
Qed.

Lemma ranked_StronglySorted (cands : list peak) :
  StronglySorted stronger (ranked cands).
Proof. apply StronglySorted_merge_sort; apply _. Qed.

Lemma thresholded_StronglySorted (cands : list peak) :
  StronglySorted stronger (thresholded cands).
Proof.
  eapply StronglySorted_sublist; [apply sublist_filter |].
  apply ranked_StronglySorted.
Qed.

Lemma retained_sublist (cands : list peak) :
  retained cands `sublist_of` ranked cands.
Proof.
  etrans; [apply suppress_sublist | apply sublist_filter].
Qed.

(** The per-voxel statement behind C3. *)
Lemma peak_directions_spec (cands : list peak) :
  (length (peak_directions cands) ≤ npeaks)%nat
  ∧ pairwise_separated (peak_directions cands)
  ∧ StronglySorted stronger (peak_directions cands)
  ∧ (∀ p, p ∈ peak_directions cands → p ∈ cands)
  ∧ (∀ p, p ∈ thresholded cands →
       p ∈ retained cands
       ∨ ∃ q, q ∈ retained cands ∧ stronger q p
              ∧ closer (direction q) (direction p) = true).
Proof.
  unfold Peaks.peak_directions. repeat split.
  - rewrite length_take. lia.
  - apply StronglySorted_pairwise.
    eapply StronglySorted_sublist; [apply sublist_take |].
    apply suppress_StronglySorted.
  - eapply StronglySorted_sublist; [apply sublist_take |].
    eapply StronglySorted_sublist; [apply retained_sublist |].
    apply ranked_StronglySorted.
  - intros p Hp.
    assert (Hr : p ∈ ranked cands).
    { eapply elem_of_sublist; [exact Hp |].
      etrans; [apply sublist_take | apply retained_sublist]. }
    unfold ranked in Hr. by rewrite merge_sort_Permutation in Hr.
  - intros p Hp.
    destruct (suppress_dropped [] _ p (thresholded_StronglySorted cands)
                (Forall_nil_2 _) Hp) as [H | (q & [Hq | Hq] & Hs & C)].
    + by left.
    + by apply elem_of_nil in Hq.
    + right. by exists q.
Qed.

(** C3: for every voxel, peak extraction returns at most [npeaks]
    directions, no two of them closer than the minimum separation angle,
    ranked strongest first; outside the mask it returns none, and inside it
    returns the first [npeaks] of the peaks retained, where every candidate
    that reaches the relative threshold is retained unless it lies within the
    separation angle of a stronger retained peak. *)
Theorem peaks_from_model_spec (cands : ndarray3 (list peak))
    (mask : ndarray3 bool) (i j k : nat) (out : list peak) :
  getitem3 (peaks_from_model cands mask) i j k = Some out →
  (length out ≤ npeaks)%nat
  ∧ pairwise_separated out
  ∧ StronglySorted stronger out
  ∧ ∃ c b, getitem3 cands i j k = Some c ∧ getitem3 mask i j k = Some b
      ∧ out = (if b then take npeaks (retained c) else [])
      ∧ ∀ p, p ∈ thresholded c →
          p ∈ retained c
          ∨ ∃ q, q ∈ retained c ∧ stronger q p
                 ∧ closer (direction q) (direction p) = true.
Proof.
  unfold getitem3, Peaks.peaks_from_model. intros H.
  apply bind_Some in H as (row & H & Hk).
  apply bind_Some in H as (plane & Hi & Hj).
  apply lookup_zip_with_Some in Hi as (cp & mp & -> & Hci & Hmi).
  apply lookup_zip_with_Some in Hj as (cr & mr & -> & Hcj & Hmj).
  apply lookup_zip_with_Some in Hk as (c & b & -> & Hck & Hmk).
  destruct (peak_directions_spec c) as (H1 & H2 & H3 & _ & H5).
  assert (Hc : (row ← (plane ← cands !! i; plane !! j); row !! k) = Some c).
  { rewrite Hci. simpl. rewrite Hcj. exact Hck. }
  assert (Hb : (row ← (plane ← mask !! i; plane !! j); row !! k) = Some b).
  { rewrite Hmi. simpl. rewrite Hmj. exact Hmk. }
  destruct b.
  - split; [exact H1 |]. split; [exact H2 |]. split; [exact H3 |].
    exists c, true. done.
  - split; [simpl; lia |]. split.
    { intros i' j' p q _ Hp. by rewrite lookup_nil in Hp. }
    split; [constructor |]. exists c, false. done.
Qed.

End PeakDirectionsFacts.

Lemma peaks_from_model_spec_witness :
  (length demo_peaks ≤ 2)%nat
  ∧ pairwise_separated demo_sphere demo_cos_alpha demo_peaks
  ∧ StronglySorted stronger demo_peaks
  ∧ ∃ c b, getitem3 [[[demo_candidates]]] 0 0 0 = Some c
      ∧ getitem3 [[[true]]] 0 0 0 = Some b
      ∧ demo_peaks =
        (if b then take 2 (retained demo_sphere demo_cos_alpha demo_theta c)
         else [])
      ∧ ∀ p, p ∈ thresholded demo_theta c →
          p ∈ retained demo_sphere demo_cos_alpha demo_theta c
          ∨ ∃ q, q ∈ retained demo_sphere demo_cos_alpha demo_theta c
                 ∧ stronger q p
                 ∧ closer demo_sphere demo_cos_alpha
                     (direction q) (direction p) = true.
Proof.
  apply (peaks_from_model_spec demo_sphere demo_cos_alpha demo_theta 2
           [[[demo_candidates]]] [[[true]]] 0 0 0 demo_peaks).
  vm_compute. reflexivity.
Defined.

End PeaksFacts.

(** ** Comparisons of binary64 values *)

Module FloatFacts.
Import Numpy.

Lemma SFcompare_antisym (x y : float64) :
  SFcompare y x = CompOpp <$> SFcompare x y.
Proof.
  destruct x as [s1|s1| |s1 m1 e1], y as [s2|s2| |s2 m2 e2];
    try reflexivity; try (destruct s1; reflexivity);
    try (destruct s2; reflexivity); try (destruct s1, s2; reflexivity).
  simpl. destruct s1, s2; simpl; try reflexivity; f_equal;
    rewrite (Z.compare_antisym e1 e2); destruct (e1 ?= e2); simpl;
    try reflexivity.
  - f_equal. symmetry. apply (Pos.compare_cont_antisym m1 m2 Eq).
  - symmetry. apply (Pos.compare_cont_antisym m1 m2 Eq).
Qed.


(** Unless one side is NaN, [x >= t] is the negation of [x < t]. *)
Lemma ge_negb_lt (x t : float64) :
  isnan x = false → isnan t = false → ge x t = negb (lt x t).
Proof.
  intros Hx Ht. unfold lt, ge, SFltb, SFleb. rewrite (SFcompare_antisym x t).
  destruct x as [s1|s1| |s1 m1 e1], t as [s2|s2| |s2 m2 e2];
    try discriminate;
    repeat match goal with s : bool |- _ => destruct s end;
    try reflexivity; simpl;
    destruct (e1 ?= e2); simpl; try reflexivity;
    destruct (PosDef.Pos.compare_cont Eq m1 m2); reflexivity.
Qed.

End FloatFacts.

(** ** The seed mask of the notebook *)

Module SeedMaskFacts.
Import Numpy FA FAFacts FloatFacts.

Lemma seed_mask_map3 (fa_img : ndarray3 float64) :
  seed_mask fa_img = map3 seed_voxel fa_img.
Proof.
  unfold seed_mask, np_ge, np_lt.
  rewrite (setitem_mask_self (λ x, ge x f_0_2) f_1 fa_img).
  rewrite (setitem_mask_self (λ x, lt x f_0_2) f_0).
  by rewrite map3_map3.
Qed.

Lemma seed_voxel_sanitized (x : float64) :
  seed_voxel (sanitize_voxel x) = if ge x f_0_2 then f_1 else f_0.
Proof.
  unfold seed_voxel, sanitize_voxel.
  destruct (isnan x) eqn:N.
  - destruct x; try discriminate. reflexivity.
  - destruct (ge x f_0_2) eqn:G; [reflexivity |].
    rewrite (ge_negb_lt x f_0_2 N eq_refl) in G.
    apply negb_false_iff in G. by rewrite G.
Qed.

(** On a sanitized FA map the seed mask is binary: a voxel holds 1 when its
    FA is at least 0.2 and 0 otherwise. *)
Lemma seed_mask_binary (fa_img : ndarray3 float64) (i j k : nat) :
  getitem3 (seed_mask (sanitize fa_img)) i j k =
  (λ x, if ge x f_0_2 then f_1 else f_0) <$> getitem3 fa_img i j k.
Proof.
  rewrite seed_mask_map3, sanitize_map3, map3_map3, getitem3_map3.
  destruct (getitem3 fa_img i j k) as [x|]; [| done].
  simpl. f_equal. apply seed_voxel_sanitized.
Qed.

(** Without the sanitization a NaN voxel passes through both assignments:
    neither comparison selects it. *)
Lemma seed_mask_keeps_nan : seed_mask [[[S754_nan]]] = [[[S754_nan]]].
Proof. reflexivity. Qed.

End SeedMaskFacts.

(** ** The tracer: the criterion at every step, failing seeds *)

Module TrackingFacts.
Import Numpy Geometry Tracking FloatFacts.

Section CriterionFacts.
Variable interpolate : ndarray3 float64 → vec3 → option float64.

Lemma check_point_TRACKPOINT (sc : ThresholdStoppingCriterion) (p : vec3) :
  check_point interpolate sc p = TRACKPOINT ↔ reaches interpolate sc p.
Proof.
  unfold check_point, reaches. split.
  - destruct (interpolate _ p) as [v|]; [| done].
    destruct (ge v _) eqn:E; [| done]. intros _. by exists v.
  - intros (v & -> & ->). done.
Qed.


End CriterionFacts.

Section TrackerFacts.
Variable criterion : vec3 → status.
Variable next_direction : vec3 → vec3 → vec3.
Variable initial_direction : vec3 → vec3.
Variable step_size : Q.
Variable max_steps : nat.

Local Abbreviation advance := (advance next_direction step_size).
Local Abbreviation trajectory := (trajectory next_direction step_size).
Local Abbreviation bounded := (bounded max_steps).
Local Abbreviation step := (step criterion next_direction step_size max_steps).
Local Abbreviation run := (run criterion next_direction step_size max_steps).
Local Abbreviation half_track :=
  (half_track criterion next_direction step_size max_steps).
Local Abbreviation streamline :=
  (streamline criterion next_direction initial_direction step_size max_steps).

Lemma bounded_Propagating (n : nat) :
  bounded n = Propagating ↔ (n < max_steps)%nat.
Proof.
  unfold Tracking.bounded. destruct (Nat.ltb_spec n max_steps); split;
    intros; try done; lia.
Qed.

Lemma step_Terminated (s : state) : phase_of s = Terminated → step s = s.
Proof. intros H. unfold Tracking.step. by rewrite H. Qed.

Lemma run_Terminated (n : nat) (s : state) :
  phase_of s = Terminated → run n s = s.
Proof.
  revert s. induction n as [|n IH]; intros s H; [done |].
  simpl. rewrite (step_Terminated s H). by apply IH.
Qed.

(** Propagation, step after step: after [n] steps from a propagating state
    the tracer still propagates exactly when the criterion passed the
    position of every one of those steps and the step bound is not reached;
    it stands then where the [n] steps lead. *)
Lemma run_Propagating (n : nat) (s : state) :
  phase_of s = Propagating → (steps s < max_steps)%nat →
  (phase_of (run n s) = Propagating ↔
   (∀ k, (1 ≤ k ≤ n)%nat →
         criterion (trajectory k (position s, heading s)).1 = TRACKPOINT)
   ∧ (steps s + n < max_steps)%nat)
  ∧ (phase_of (run n s) = Propagating →
     (position (run n s), heading (run n s))
     = trajectory n (position s, heading s)).
Proof.
  revert s. induction n as [|n IH]; intros s Hph Hst.
  - simpl. split; [| done]. split; [| done].
    intros _. split; [intros k Hk; lia | lia].
  - cbn [Tracking.run].
    assert (Hstep : step s =
      match criterion (advance (position s, heading s)).1 with
      | TRACKPOINT =>
          {| phase_of := bounded (S (steps s));
             position := (advance (position s, heading s)).1;
             heading := (advance (position s, heading s)).2;
             steps := S (steps s);
             points := (advance (position s, heading s)).1 :: points s |}
      | _ => {| phase_of := Terminated; position := position s;
                heading := heading s; steps := steps s; points := points s |}
      end).
    { unfold Tracking.step. rewrite Hph. reflexivity. }
    destruct (criterion (advance (position s, heading s)).1) eqn:E.
    + destruct (Nat.ltb_spec (S (steps s)) max_steps) as [Hlt | Hge].
      * assert (Hph' : phase_of (step s) = Propagating).
        { rewrite Hstep. simpl. by apply bounded_Propagating. }
        assert (Hst' : (steps (step s) < max_steps)%nat).
        { rewrite Hstep. simpl. exact Hlt. }
        destruct (IH (step s) Hph' Hst') as [IH1 IH2].
        assert (Hpd : (position (step s), heading (step s))
                      = advance (position s, heading s)).
        { rewrite Hstep. cbn [position heading]. symmetry.
          apply surjective_pairing. }
        rewrite Hpd in IH1, IH2.
        assert (Hs : steps (step s) = S (steps s)) by (by rewrite Hstep).
        rewrite Hs in IH1. split; [| exact IH2].
        rewrite IH1. split.
        -- intros [Hk Hb]. split; [| lia].
           intros [|k] Hr; [lia |]. destruct k as [|k]; [exact E |].
           apply (Hk (S k)). lia.
        -- intros [Hk Hb]. split; [| lia].
           intros k Hr. apply (Hk (S k)). lia.
      * assert (Hph' : phase_of (step s) = Terminated).
        { rewrite Hstep. simpl. unfold Tracking.bounded.
          by destruct (Nat.ltb_spec (S (steps s)) max_steps); [lia |]. }
        rewrite (run_Terminated n _ Hph'), Hph'.
        split; [| done]. split; [done | intros [_ Hb]; lia].
    + assert (Hph' : phase_of (step s) = Terminated) by (by rewrite Hstep).
      rewrite (run_Terminated n _ Hph'), Hph'.
      split; [| done]. split; [done |]. intros [Hk _].
      specialize (Hk 1%nat ltac:(lia)). cbn [Tracking.trajectory] in Hk.
      congruence.
    + assert (Hph' : phase_of (step s) = Terminated) by (by rewrite Hstep).
      rewrite (run_Terminated n _ Hph'), Hph'.
      split; [| done]. split; [done |]. intros [Hk _].
      specialize (Hk 1%nat ltac:(lia)). cbn [Tracking.trajectory] in Hk.
      congruence.
Qed.

(** Each step leads [step_size] times the direction at the position
    further. *)
Lemma trajectory_S (k : nat) (pd : vec3 * vec3) :
  trajectory (S k) pd = advance (trajectory k pd).
Proof.
  revert pd. induction k as [|k IH]; intros pd; [done |].
  change (trajectory (S (S k)) pd) with (trajectory (S k) (advance pd)).
  by rewrite IH.
Qed.

(** A state that propagates has steps left; the tracer keeps it so. *)
Lemma step_within_bound (s : state) :
  (phase_of s = Propagating → (steps s < max_steps)%nat) →
  phase_of (step s) = Propagating → (steps (step s) < max_steps)%nat.
Proof.
  intros Hs. unfold Tracking.step. destruct (phase_of s) eqn:E.
  - destruct (criterion (position s)); simpl; try done.
    by intros ?%bounded_Propagating.
  - destruct (criterion _); simpl; try done.
    by intros ?%bounded_Propagating.
  - rewrite E. done.
Qed.

(** Once under way the tracer does not come back to [Seeded], and the
    points of a track are never taken back. *)
Lemma step_under_way (s : state) :
  phase_of s ≠ Seeded →
  phase_of (step s) ≠ Seeded ∧ points s `suffix_of` points (step s).
Proof.
  intros Hph. unfold Tracking.step. destruct (phase_of s) eqn:E; [done | |].
  - destruct (criterion _); simpl.
    + split; [| by apply suffix_cons_r].
      unfold Tracking.bounded. by destruct (_ <? _)%nat.
    + by split.
    + by split.
  - by rewrite E.
Qed.

Lemma run_under_way (n : nat) (s : state) :
  phase_of s ≠ Seeded →
  phase_of (run n s) ≠ Seeded ∧ points s `suffix_of` points (run n s).
Proof.
  revert s. induction n as [|n IH]; intros s Hph; [done |].
  simpl. destruct (step_under_way s Hph) as [H1 H2].
  destruct (IH (step s) H1) as [H3 H4].
  split; [exact H3 | by etrans].
Qed.

(** The tracer is total: within [max_steps + 1] transitions it has
    terminated. *)
Lemma run_terminates (seed d0 : vec3) :
  phase_of (run (S max_steps) (start seed d0)) = Terminated.
Proof.
  cbn [Tracking.run].
  assert (Hs : phase_of (step (start seed d0)) = Terminated
               ∨ phase_of (step (start seed d0)) = Propagating
                 ∧ steps (step (start seed d0)) = 0%nat
                 ∧ (0 < max_steps)%nat).
  { unfold Tracking.step. simpl. destruct (criterion seed); simpl; auto.
    unfold Tracking.bounded.
    destruct (Nat.ltb_spec 0 max_steps); [right | left]; done. }
  destruct Hs as [Hs | (Hs & H0 & Hm)]; [by rewrite run_Terminated |].
  assert (Hlt : (steps (step (start seed d0)) < max_steps)%nat) by lia.
  destruct (run_Propagating max_steps _ Hs Hlt) as [[H _] _].
  destruct (run_under_way max_steps (step (start seed d0))) as [Hn _];
    [congruence |].
  destruct (phase_of (run max_steps (step (start seed d0)))); [done | | done].
  destruct (H eq_refl) as [_ Hb]. lia.
Qed.




End TrackerFacts.

(** Reading the map at the nearest voxel returns, at a voxel centre, the
    value of that voxel. *)
Lemma nearest_index_centre (i : nat) :
  nearest_index (inject_Z (Z.of_nat i)) = Some i.
Proof.
  unfold nearest_index.
  assert (H : Qfloor (inject_Z (Z.of_nat i) + (1 # 2)) = Z.of_nat i).
  { unfold Qfloor, Qplus, inject_Z. simpl.
    symmetry. apply (Z.div_unique _ _ _ 1); lia. }
  rewrite H. destruct (Z.ltb_spec (Z.of_nat i) 0); [lia |].
  by rewrite Nat2Z.id.
Qed.

Lemma voxel_of_centre (v : nat * nat * nat) : voxel_of (voxel_centre v) = Some v.
Proof.
  destruct v as [[i j] k]. unfold voxel_of, voxel_centre.
  by rewrite !nearest_index_centre.
Qed.

Lemma nearest_voxel_centre (a : ndarray3 float64) (i j k : nat) :
  nearest a (voxel_centre (i, j, k)) = getitem3 a i j k.
Proof. unfold nearest. by rewrite voxel_of_centre. Qed.


(** A straight track: one voxel a step, along the third axis. *)
Lemma straight_line (k j : nat) :
  trajectory demo_direction 1 k (voxel_centre (0, 0, j)%nat, demo_x)
  = (voxel_centre (0, 0, (j + k))%nat, demo_x).
Proof.
  revert j. induction k as [|k IH]; intros j.
  - by rewrite Nat.add_0_r.
  - cbn [trajectory].
    replace (advance demo_direction 1 (voxel_centre (0, 0, j)%nat, demo_x))
      with (voxel_centre (0, 0, S j)%nat, demo_x).
    + rewrite IH. do 3 f_equal. lia.
    + unfold advance, demo_direction, demo_x, voxel_centre, vadd, vscale.
      cbn [fst snd]. do 2 f_equal.
      unfold Qplus, Qmult, inject_Z. cbn [Qnum Qden]. f_equal; lia.
Qed.

(** C2, as stated, fails on the tracer: under no step bound does
    propagation continue exactly while the interpolated FA value is at least
    0.2.  On a row of voxels of FA 0.8, longer than the bound, every
    position of a straight track passes, and the track is ended all the
    same. *)
Lemma continues_exactly_while_fails :
  ¬ (∃ max_steps : nat,
       (0 < max_steps)%nat
       ∧ ∀ (interpolate : ndarray3 float64 → vec3 → option float64)
           (next_direction : vec3 → vec3 → vec3) (step_size : Q)
           (fa_img : ndarray3 float64) (s : state) (n : nat),
           phase_of s = Propagating → (steps s < max_steps)%nat →
           (phase_of (run (check_point interpolate (stopping_criterion fa_img))
                          next_direction step_size max_steps n s) = Propagating
            ↔ ∀ k, (1 ≤ k ≤ n)%nat →
                   ∃ v, interpolate fa_img
                          (trajectory next_direction step_size k
                             (position s, heading s)).1 = Some v
                        ∧ ge v f_0_2 = true)).
Proof.
  intros (m & Hm & H).
  set (fa := [[replicate (S m) f_0_8]]).
  set (s := {| phase_of := Propagating; position := voxel_centre (0, 0, 0)%nat;
               heading := demo_x; steps := 0;
               points := [voxel_centre (0, 0, 0)%nat] |}).
  destruct (H nearest demo_direction 1%Q fa s m eq_refl Hm) as [_ H2].
  assert (E : phase_of (run (check_point nearest (stopping_criterion fa))
                            demo_direction 1 m m s) = Propagating).
  { apply H2. intros k Hk. exists f_0_8. split; [| vm_compute; reflexivity].
    cbn [position heading s]. rewrite straight_line. cbn [fst].
    rewrite nearest_voxel_centre. unfold fa.
    change (getitem3 [[replicate (S m) f_0_8]] 0 0 k)
      with (replicate (S m) f_0_8 !! k).
    apply lookup_replicate_2. lia. }
  destruct (run_Propagating (check_point nearest (stopping_criterion fa))
              demo_direction 1 m m s eq_refl Hm) as [[H3 _] _].
  destruct (H3 E) as [_ Hb]. simpl in Hb. lia.
Qed.

(** C2, amended: during propagation the predicate "the interpolated FA
    value is at least 0.2" is evaluated at the position every step leads to:
    the tracer still propagates after [n] steps exactly when that value, at
    the position of each of those steps, was at least 0.2 and the step bound
    is not reached.  It stands then at the position of step [n], and every
    step leads [step_size] times the direction read at the position
    further. *)
Theorem criterion_at_every_step
    (interpolate : ndarray3 float64 → vec3 → option float64)
    (next_direction : vec3 → vec3 → vec3) (step_size : Q) (max_steps : nat)
    (fa_img : ndarray3 float64) (s : state) (n : nat) :
  let passes := λ p, ∃ v, interpolate fa_img p = Some v ∧ ge v f_0_2 = true in
  let criterion := check_point interpolate (stopping_criterion fa_img) in
  let at_step := λ k,
    (trajectory next_direction step_size k (position s, heading s)).1 in
  let s' := run criterion next_direction step_size max_steps n s in
  phase_of s = Propagating → (steps s < max_steps)%nat →
  (∀ p, criterion p = TRACKPOINT ↔ passes p)
  ∧ (phase_of s' = Propagating ↔
     (∀ k, (1 ≤ k ≤ n)%nat → passes (at_step k))
     ∧ (steps s + n < max_steps)%nat)
  ∧ (phase_of s' = Propagating → position s' = at_step n)
  ∧ (∀ k, let '(p, d) := trajectory next_direction step_size k
                            (position s, heading s) in
          at_step (S k) = vadd p (vscale step_size (next_direction p d))).
Proof.
  intros passes criterion at_step s' Hph Hst.
  assert (Hc : ∀ p, criterion p = TRACKPOINT ↔ passes p).
  { intros p. apply check_point_TRACKPOINT. }
  destruct (run_Propagating criterion next_direction step_size max_steps
              n s Hph Hst) as [H1 H2].
  split; [exact Hc |]. unfold s'. split; [| split].
  - rewrite H1. split; intros [Hk Hb]; (split; [| exact Hb]);
      intros k Hr; apply Hc, Hk, Hr.
  - intros E. specialize (H2 E). unfold at_step. by rewrite <- H2.
  - intros k. unfold at_step. rewrite trajectory_S.
    by destruct (trajectory next_direction step_size k _).
Qed.

Lemma criterion_at_every_step_witness :
  phase_of (run (check_point nearest (stopping_criterion demo_fa))
                demo_direction (1 # 2) 10 2 demo_state) = Propagating
  ∧ position (run (check_point nearest (stopping_criterion demo_fa))
                  demo_direction (1 # 2) 10 2 demo_state)
    = (trajectory demo_direction (1 # 2) 2
         (position demo_state, heading demo_state)).1.
Proof.
  destruct (criterion_at_every_step nearest demo_direction (1 # 2) 10 demo_fa
              demo_state 2 eq_refl) as (_ & H2 & H3 & _).
  { simpl. lia. }
  assert (E : phase_of (run (check_point nearest (stopping_criterion demo_fa))
                            demo_direction (1 # 2) 10 2 demo_state)
              = Propagating).
  { apply H2. split; [| simpl; lia].
    intros [|[|[|k]]] Hk; try lia; exists f_0_8;
      split; vm_compute; reflexivity. }
  split; [exact E | exact (H3 E)].
Defined.




End TrackingFacts.

(** ** The FA statements: what they leave in the array *)

Section Pointwise.
Import Numpy.
Context {A B : Type}.

Lemma map3_ext_fun (f g : A → B) (a : ndarray3 A) :
  (∀ x, f x = g x) → map3 f a = map3 g a.
Proof.
  intros H. unfold map3. apply list_fmap_ext. intros _ plane _.
  apply list_fmap_ext. intros _ row _. apply list_fmap_ext. auto.
Qed.

Lemma count_true_none (a : ndarray3 A) :
  count_true (map3 (λ _, false) a) = 0%nat.
Proof.
  unfold count_true, map3.
  induction a as [|plane a IH]; csimpl; [done |].
  rewrite concat_app, filter_app, length_app, IH, Nat.add_0_r. clear IH.
  induction plane as [|row plane IH]; csimpl; [done |].
  rewrite filter_app, length_app, IH, Nat.add_0_r. clear IH.
  induction row as [|x row IH]; csimpl; [done |].
  rewrite filter_cons_False by done. exact IH.
Qed.

End Pointwise.

Module ArrayFacts.
Import Numpy FA FAFacts FloatFacts SeedMaskFacts.

(** X2: after [fa_img[np.isnan(fa_img)] = 0] no voxel of the array is NaN:
    the NaN mask of the result is [False] everywhere, on the shape of the
    array, and selects nothing. *)
Theorem sanitize_no_nan (fa_img : ndarray3 float64) :
  np_isnan (sanitize fa_img) = map3 (λ _, false) fa_img
  ∧ count_true (np_isnan (sanitize fa_img)) = 0%nat.
Proof.
  assert (E : np_isnan (sanitize fa_img) = map3 (λ _, false) fa_img).
  { unfold np_isnan. rewrite sanitize_map3, map3_map3. apply map3_ext_fun.
    intros x. by destruct x. }
  split; [exact E |]. rewrite E. apply count_true_none.
Qed.

Lemma seed_voxel_cases (x : float64) :
  seed_voxel x = if isnan x then x else if ge x f_0_2 then f_1 else f_0.
Proof.
  unfold seed_voxel. destruct (isnan x) eqn:N.
  - destruct x; try discriminate. reflexivity.
  - destruct (ge x f_0_2) eqn:G; [reflexivity |].
    rewrite (ge_negb_lt x f_0_2 N eq_refl) in G.
    apply negb_false_iff in G. by rewrite G.
Qed.

(** X3: the two thresholding assignments on any FA map, sanitized or not: a
    NaN voxel stays as it is, since neither comparison selects it; every other
    voxel (the infinities included) becomes 1 when it is at least 0.2 and 0
    otherwise.  So the seed mask has the NaN voxels of the map it was made
    from. *)
Theorem seed_mask_raw (fa_img : ndarray3 float64) :
  (∀ i j k,
     getitem3 (seed_mask fa_img) i j k =
     (λ x, if isnan x then x else if ge x f_0_2 then f_1 else f_0)
       <$> getitem3 fa_img i j k)
  ∧ np_isnan (seed_mask fa_img) = np_isnan fa_img.
Proof.
  split.
  - intros i j k. rewrite seed_mask_map3, getitem3_map3.
    destruct (getitem3 fa_img i j k) as [x|]; [| done].
    simpl. f_equal. apply seed_voxel_cases.
  - unfold np_isnan. rewrite seed_mask_map3, map3_map3. apply map3_ext_fun.
    intros x. simpl. rewrite seed_voxel_cases.
    destruct (isnan x) eqn:N; [exact N |]. by destruct (ge x f_0_2).
Qed.

(** X4: thresholding a seed mask again changes nothing, and the sanitization
    commutes with the thresholding: sanitizing the seed mask of a raw map gives
    the seed mask of the sanitized map. *)
Theorem seed_mask_idem_commutes (fa_img : ndarray3 float64) :
  seed_mask (seed_mask fa_img) = seed_mask fa_img
  ∧ sanitize (seed_mask fa_img) = seed_mask (sanitize fa_img).
Proof.
  rewrite !seed_mask_map3, !sanitize_map3, !map3_map3. split.
  - apply map3_ext. intros x. simpl. rewrite (seed_voxel_cases x).
    destruct (isnan x) eqn:N.
    + destruct x; try discriminate. reflexivity.
    + by destruct (ge x f_0_2).
  - apply map3_ext. intros x. simpl. rewrite seed_voxel_sanitized.
    rewrite (seed_voxel_cases x). unfold sanitize_voxel.
    destruct (isnan x) eqn:N.
    + destruct x; try discriminate. reflexivity.
    + by destruct (ge x f_0_2).
Qed.

End ArrayFacts.

(** ** The array statements, run from their source text *)

Module NumpyRunFacts.
Import Python Notebook Numpy FA NumpyRun.
Open Scope string_scope.

Lemma parse_cell_sanitize :
  parse (source cell_sanitize) =
  Ok [Import ["numpy"] (Some "np");
      Assign [ESubscript (EName "fa_img")
                (ECall (EAttr (EName "np") "isnan") [EName "fa_img"] [])]
             (ENum "0")].
Proof. vm_compute. reflexivity. Qed.

Lemma parse_cell_seeds_5 :
  parse (source (first_lines 5 cell_seeds)) =
  Ok [ImportFrom ["dipy"; "tracking"] [("utils", None)];
      Assign [EName "seed_mask"] (ECall (EAttr (EName "fa_img") "copy") [] []);
      Assign [ESubscript (EName "seed_mask")
                (EBinOp (EName "seed_mask") ">=" (ENum "0.2"))] (ENum "1");
      Assign [ESubscript (EName "seed_mask")
                (EBinOp (EName "seed_mask") "<" (ENum "0.2"))] (ENum "0")].
Proof. vm_compute. reflexivity. Qed.

(** The constants of the array model are what the literals of the source
    read as; [.2], the threshold of the stopping criterion, reads as [0.2]. *)
Lemma literal_0 : literal "0" = Some f_0.
Proof. vm_compute. reflexivity. Qed.

Lemma literal_1 : literal "1" = Some f_1.
Proof. vm_compute. reflexivity. Qed.

Lemma literal_0_2 : literal "0.2" = Some f_0_2.
Proof. vm_compute. reflexivity. Qed.

Lemma literal_dot_2 : literal ".2" = Some f_0_2.
Proof. vm_compute. reflexivity. Qed.

Lemma same_shape_map3 {A B} (f : A → B) (a : ndarray3 A) :
  same_shape a (map3 f a) = true.
Proof.
  unfold same_shape. apply bool_decide_eq_true. by rewrite map3_map3.
Qed.

Ltac run_store Hn Hh :=
  repeat first
    [ rewrite lookup_insert_eq
    | rewrite lookup_insert_ne by done
    | rewrite Hn | rewrite Hh
    | rewrite literal_0 | rewrite literal_1 | rewrite literal_0_2
    | rewrite bool_decide_eq_true_2 by done
    | rewrite same_shape_map3
    | progress cbn -[literal same_shape fresh] ].

(** X5: the sanitization cell, run from its source text in any store in
    which [fa_img] names an array, binds [np] and updates that array in
    place: no name is rebound to a new array, so every other name of the
    array (the map held by the tensor fit, an alias) reads the sanitized
    values too. *)
Theorem sanitize_in_place (σ : store) (l : loc) (a : ndarray3 float64) :
  names σ !! "fa_img" = Some (VArray l) →
  heap σ !! l = Some a →
  run σ (source cell_sanitize)
  = Done {| names := <["np" := VModule ["numpy"]]> (names σ);
            heap := <[l := sanitize a]> (heap σ) |}.
Proof.
  intros Hn Hh. unfold run. rewrite parse_cell_sanitize.
  run_store Hn Hh. reflexivity.
Qed.

Lemma sanitize_in_place_witness :
  run demo_store (source cell_sanitize)
  = Done {| names := <["np" := VModule ["numpy"]]> (names demo_store);
            heap := <[0%nat := sanitize [[[S754_nan; f_0_2; S754_infinity false]]]]>
                      (heap demo_store) |}.
Proof.
  apply (sanitize_in_place demo_store 0%nat); vm_compute; reflexivity.
Defined.

(** X6: run in a store in which [fa_img] is not bound, the sanitization cell
    raises [NameError]: the import has run, the assignment has stored
    nothing. *)
Theorem sanitize_unbound_raises (σ : store) :
  names σ !! "fa_img" = None →
  run σ (source cell_sanitize) = Raise "NameError".
Proof.
  intros Hn. unfold run. rewrite parse_cell_sanitize.
  run_store Hn Hn. reflexivity.
Qed.

Lemma sanitize_unbound_raises_witness :
  run {| names := ∅; heap := ∅ |} (source cell_sanitize) = Raise "NameError".
Proof.
  apply (sanitize_unbound_raises {| names := ∅; heap := ∅ |}).
  vm_compute. reflexivity.
Defined.

(** X7: the first five lines of the seed cell, run from their source text:
    [fa_img.copy()] allocates a new array, the two thresholding assignments
    update the copy, and the array of [fa_img] is left as it was. *)
Theorem seed_mask_is_a_copy (σ : store) (l : loc) (a : ndarray3 float64) :
  names σ !! "fa_img" = Some (VArray l) →
  heap σ !! l = Some a →
  run σ (source (first_lines 5 cell_seeds))
  = Done {| names := <["seed_mask" := VArray (fresh (dom (heap σ)))]>
                       (<["utils" := VModule ["dipy"; "tracking"; "utils"]]>
                          (names σ));
            heap := <[fresh (dom (heap σ)) := seed_mask a]> (heap σ) |}
  ∧ fresh (dom (heap σ)) ≠ l.
Proof.
  intros Hn Hh. split.
  - unfold run. rewrite parse_cell_seeds_5.
    run_store Hn Hh. rewrite !insert_insert_eq. reflexivity.
  - intros E. apply (is_fresh (dom (heap σ))). rewrite E.
    by apply elem_of_dom_2 with a.
Qed.

Lemma seed_mask_is_a_copy_witness :
  run demo_store (source (first_lines 5 cell_seeds))
  = Done {| names := <["seed_mask" := VArray (fresh (dom (heap demo_store)))]>
                       (<["utils" := VModule ["dipy"; "tracking"; "utils"]]>
                          (names demo_store));
            heap := <[fresh (dom (heap demo_store))
                      := seed_mask [[[S754_nan; f_0_2; S754_infinity false]]]]>
                      (heap demo_store) |}
  ∧ fresh (dom (heap demo_store)) ≠ 0%nat.
Proof.
  apply (seed_mask_is_a_copy demo_store 0%nat); vm_compute; reflexivity.
Defined.

End NumpyRunFacts.

(** ** The workflow: when the job and its steps run *)

Module WorkflowFacts.
Import Python Notebook Workflow.
Open Scope string_scope.

Lemma starts_with_spec (p s : list ascii) :
  starts_with p s = true ↔ ∃ post, s = (p ++ post)%list.
Proof.
  revert s. induction p as [|a p IH]; intros s; simpl.
  - split; [by exists s | done].
  - destruct s as [|b s].
    + split; [done | by intros [post H]].
    + rewrite andb_true_iff, bool_decide_eq_true, IH. split.
      * intros [-> [post ->]]. by exists post.
      * intros [post H]. injection H as -> ->. split; [done | by exists post].
Qed.

Lemma occurs_spec (needle hay : list ascii) :
  occurs needle hay = true ↔ ∃ pre post, hay = (pre ++ needle ++ post)%list.
Proof.
  induction hay as [|c hay IH].
  - cbn [occurs]. rewrite orb_false_r, starts_with_spec. split.
    + intros [post H]. by exists [], post.
    + intros [pre [post H]]. symmetry in H.
      apply app_eq_nil in H as [_ H]. by exists post.
  - cbn [occurs]. rewrite orb_true_iff, starts_with_spec, IH. split.
    + intros [[post H] | [pre [post H]]].
      * by exists [], post.
      * exists (c :: pre), post. by rewrite H.
    + intros [[|c' pre] [post H]].
      * left. by exists post.
      * right. injection H as _ H. by exists pre, post.
Qed.

(** X8: the job is skipped exactly for a push whose head commit message,
    in lower case, holds [[skip ci]] somewhere (so [[Skip CI]] skips it too),
    and its condition always evaluates: to true or to false. *)
Theorem job_skipped_iff_skip_ci (ctx : gmap string string) :
  (job_runs ctx = Some false ↔
   ∃ pre post,
     lower (head_commit_message ctx)
     = (pre ++ list_ascii_of_string "[skip ci]" ++ post)%list)
  ∧ (job_runs ctx = Some true ∨ job_runs ctx = Some false).
Proof.
  assert (E : job_runs ctx
              = Some (negb (occurs (list_ascii_of_string "[skip ci]")
                              (lower (head_commit_message ctx)))))
    by reflexivity.
  rewrite E, <- occurs_spec.
  destruct (occurs _ _); simpl; split; try split; try done; auto.
Qed.

Lemma steps_run_cases (ctx : gmap string string) :
  steps_run ctx
  = if bool_decide (lower (cache_hit ctx) = list_ascii_of_string "true")
    then [checkout; setup_python; cache_pip; download_data; test_notebooks]
    else steps.
Proof.
  unfold steps_run, steps.
  rewrite !filter_cons_True by reflexivity.
  assert (E : step_runs ctx install_requirements
              = negb (bool_decide (lower (cache_hit ctx)
                                   = list_ascii_of_string "true"))).
  { unfold step_runs. cbn -[lower]. fold (cache_hit ctx).
    by destruct (bool_decide (lower (cache_hit ctx) = _)). }
  case_bool_decide as H.
  - rewrite (filter_cons_False _ install_requirements)
      by (rewrite E; discriminate).
    rewrite !filter_cons_True by reflexivity. reflexivity.
  - rewrite (filter_cons_True _ install_requirements) by exact E.
    rewrite !filter_cons_True by reflexivity. reflexivity.
Qed.

(** X9: the step "Test Notebooks", which activates the virtual environment
    [~/sdc_bids_dmri], runs whatever the cache gave; the only step whose
    script or cached path mentions that environment, apart from the
    activation itself, is "Install requirements", which creates it, and that
    step runs exactly when the cache did not report a hit.  So on a cache
    hit the environment is activated in a job in which no step created or
    restored it. *)
Theorem install_step_iff_cache_miss (ctx : gmap string string) :
  test_notebooks ∈ steps_run ctx
  ∧ mentions "~/sdc_bids_dmri/bin/activate" test_notebooks = true
  ∧ (∀ s, s ∈ steps → mentions "sdc_bids_dmri" s = true →
          s = install_requirements ∨ s = test_notebooks)
  ∧ mentions "virtualenv ~/sdc_bids_dmri" install_requirements = true
  ∧ (install_requirements ∈ steps_run ctx ↔
     lower (cache_hit ctx) ≠ list_ascii_of_string "true").
Proof.
  rewrite steps_run_cases. unfold steps.
  split; [case_bool_decide; rewrite !elem_of_cons; auto 10 |].
  split; [vm_compute; reflexivity |]. split; [| split].
  - intros s Hs Hm. rewrite !elem_of_cons, elem_of_nil in Hs.
    destruct Hs as [->|[->|[->|[->|[->|[->|[]]]]]]];
      try (by left); try (by right); vm_compute in Hm; discriminate Hm.
  - vm_compute. reflexivity.
  - case_bool_decide as H.
    + rewrite !elem_of_cons, elem_of_nil. split; [| done].
      intros [E|[E|[E|[E|[E|[]]]]]]; discriminate E.
    + rewrite !elem_of_cons. split; [done | auto 10].
Qed.

End WorkflowFacts.

(** ** The notebook in any session: the name [os] *)

Module SessionFacts.
Import Python Notebook Session.
Open Scope string_scope.

Lemma lookup_name_elem (ns : gset string) (x : string) :
  x ∈ ns → lookup_name ns x = Ok ().
Proof. intros H. unfold lookup_name. by rewrite bool_decide_eq_true_2. Qed.

Lemma lookup_name_not_elem (ns : gset string) (x : string) :
  x ∉ ns → bool_decide (x ∈ builtins) = false → lookup_name ns x = NameError x.
Proof.
  intros H B. unfold lookup_name. rewrite B.
  by rewrite bool_decide_eq_false_2.
Qed.

Lemma parse_cell_visualize :
  ∃ rest,
    parse (source cell_visualize) =
    Ok ([ImportFrom ["dipy"; "viz"]
           [("window", None); ("actor", None); ("colormap", None)];
         Assign [EName "streamlines_actor"]
           (ECall (EAttr (EName "actor") "line") [EName "streamlines"] []);
         Assign [EName "scene"]
           (ECall (EAttr (EName "window") "Scene") [] []);
         Assign [EName "out_dir"]
           (EBinOp
              (EStr "../../data/ds000221/derivatives/dwi/tractography/sub-%s/ses-01/dwi/")
              "%" (EName "subj"))]
        ++ If (ENot (ECall (EAttr (EAttr (EName "os") "path") "exists")
                       [EName "out_dir"] []))
              [Expr (ECall (EAttr (EName "os") "makedirs")
                       [EName "out_dir"] [])]
           :: rest)%list.
Proof. eexists. vm_compute. reflexivity. Qed.

Ltac unfold_names :=
  rewrite ?elem_of_union, ?elem_of_singleton, ?elem_of_list_to_set,
    ?elem_of_cons, ?elem_of_nil.
Ltac bound := unfold_names; tauto.
Ltac unbound := unfold_names; intuition discriminate.
Ltac run_names :=
  cbn [mbind result_bind app exec_all exec eval store_all store from_binds
       fmap list_fmap default fst snd].

(** X10: run in any session in which [os] is not bound, whatever else is,
    the visualization cell raises [NameError]: for [streamlines] or [subj]
    when the session lacks one of them, for [os] otherwise.  It completes in
    none. *)
Theorem visualization_cell_any_session
    (oracle : expr → bool) (ns : gset string) :
  "os" ∉ ns →
  run_cell oracle ns cell_visualize =
  NameError (if bool_decide ("streamlines" ∈ ns)
             then if bool_decide ("subj" ∈ ns) then "os" else "subj"
             else "streamlines").
Proof.
  intros Hos. unfold run_cell.
  destruct parse_cell_visualize as [rest ->]. run_names.
  rewrite (lookup_name_elem _ "actor") by bound.
  case_bool_decide as Hs.
  - rewrite (lookup_name_elem _ "streamlines") by bound. run_names.
    rewrite (lookup_name_elem _ "window") by bound. run_names.
    case_bool_decide as Hj.
    + rewrite (lookup_name_elem _ "subj") by bound. run_names.
      rewrite (lookup_name_not_elem _ "os");
        [reflexivity | unbound | vm_compute; reflexivity].
    + rewrite (lookup_name_not_elem _ "subj");
        [reflexivity | unbound | vm_compute; reflexivity].
  - rewrite (lookup_name_not_elem _ "streamlines");
      [reflexivity | unbound | vm_compute; reflexivity].
Qed.

Lemma visualization_cell_any_session_witness :
  run_cell (λ _, true) {["streamlines"]} cell_visualize = NameError "subj".
Proof.
  refine (eq_trans
            (visualization_cell_any_session (λ _, true) {["streamlines"]} _) _).
  - apply (bool_decide_unpack _). vm_compute. reflexivity.
  - vm_compute. reflexivity.
Defined.

(** Induction on expressions and statements, through the lists they hold. *)
Lemma expr_ind_elts (P : expr → Prop) :
  (∀ es, Forall P es → P (ETuple es)) →
  (∀ es, Forall P es → P (EList es)) →
  (∀ e, match e with ETuple _ | EList _ => False | _ => True end → P e) →
  ∀ e, P e.
Proof.
  intros HT HL HO. fix IH 1. intros e.
  destruct e as [x|c|n|s|v a|v i|f args kws|es|es|v|v|l op r];
    try (apply HO; exact I).
  - apply HT. induction es as [|a es IHes]; constructor; [apply IH | exact IHes].
  - apply HL. induction es as [|a es IHes]; constructor; [apply IH | exact IHes].
Qed.

Lemma stmt_ind_body (P : stmt → Prop) :
  (∀ c body, Forall P body → P (If c body)) →
  (∀ s, match s with If _ _ => False | _ => True end → P s) →
  ∀ s, P s.
Proof.
  intros HI HO. fix IH 1. intros s.
  destruct s as [m a|m l|ts v|v|c body]; try (apply HO; exact I).
  apply HI. induction body as [|a body IHb]; constructor; [apply IH | exact IHb].
Qed.

Lemma store_elts_bound (es : list expr) :
  Forall (λ t, ∀ ns ns', store ns t = Ok ns' →
                         grows_by ns ns' (target_names t)) es →
  ∀ ns ns',
    (fix go (ns : gset string) (l : list expr) : result (gset string) :=
       match l with
       | [] => Ok ns
       | a :: l' => ns' ← store ns a; go ns' l'
       end) ns es = Ok ns' →
    grows_by ns ns' (concat (target_names <$> es)).
Proof.
  induction 1 as [|a es Ha _ IH]; intros ns ns' H x Hx.
  - injection H as <-. by left.
  - destruct (store ns a) as [ns1| | | |] eqn:E; try discriminate H.
    cbn [mbind result_bind] in H. csimpl. rewrite elem_of_app.
    destruct (IH _ _ H x Hx) as [H1|H1]; [| tauto].
    destruct (Ha _ _ E x H1); tauto.
Qed.

Lemma store_bound (t : expr) :
  ∀ ns ns', store ns t = Ok ns' → grows_by ns ns' (target_names t).
Proof.
  induction t as [es IH|es IH|t Ht] using expr_ind_elts.
  - intros ns ns' H. by apply store_elts_bound.
  - intros ns ns' H. by apply store_elts_bound.
  - intros ns ns' H x Hx.
    destruct t as [y|c|n|s|v a|v i|f args kws|es|es|v|v|l op r];
      try done; cbn [store target_names] in *;
      try (injection H as <-; by left).
    + injection H as <-. apply elem_of_union in Hx as [Hx|Hx]; [| by left].
      right. apply elem_of_singleton in Hx as ->. by left.
    + destruct (eval ns v); try discriminate H. injection H as <-. by left.
    + destruct (eval ns v); try discriminate H. cbn [mbind result_bind] in H.
      destruct (eval ns i); try discriminate H. injection H as <-. by left.
Qed.

Lemma store_all_bound (ts : list expr) :
  ∀ ns ns', store_all ns ts = Ok ns' →
            grows_by ns ns' (concat (target_names <$> ts)).
Proof.
  induction ts as [|t ts IH]; intros ns ns' H x Hx.
  - injection H as <-. by left.
  - cbn [store_all] in H.
    destruct (store ns t) as [ns1| | | |] eqn:E; try discriminate H.
    cbn [mbind result_bind] in H. csimpl. rewrite elem_of_app.
    destruct (IH _ _ H x Hx) as [H1|H1]; [| tauto].
    destruct (store_bound t _ _ E x H1); tauto.
Qed.

Lemma exec_body_bound (oracle : expr → bool) (body : list stmt) :
  Forall (λ s, ∀ ns ns', exec oracle ns s = Ok ns' →
                         grows_by ns ns' (bound_names s)) body →
  ∀ ns ns',
    (fix go (ns : gset string) (l : list stmt) : result (gset string) :=
       match l with
       | [] => Ok ns
       | s' :: l' => ns' ← exec oracle ns s'; go ns' l'
       end) ns body = Ok ns' →
    grows_by ns ns' (concat (bound_names <$> body)).
Proof.
  induction 1 as [|a body Ha _ IH]; intros ns ns' H x Hx.
  - injection H as <-. by left.
  - destruct (exec oracle ns a) as [ns1| | | |] eqn:E; try discriminate H.
    cbn [mbind result_bind] in H. csimpl. rewrite elem_of_app.
    destruct (IH _ _ H x Hx) as [H1|H1]; [| tauto].
    destruct (Ha _ _ E x H1); tauto.
Qed.

(** A statement that runs binds none but its [bound_names]. *)
Lemma exec_bound (oracle : expr → bool) (s : stmt) :
  ∀ ns ns', exec oracle ns s = Ok ns' → grows_by ns ns' (bound_names s).
Proof.
  induction s as [c body IH|s Hs] using stmt_ind_body.
  - intros ns ns' H. cbn [exec bound_names] in *.
    destruct (eval ns c); try discriminate H. cbn [mbind result_bind] in H.
    destruct (oracle c).
    + by apply (exec_body_bound oracle).
    + injection H as <-. intros x Hx. by left.
  - intros ns ns' H x Hx.
    destruct s as [m a|m l|ts v|v|c body]; try done;
      cbn [exec bound_names] in *.
    + injection H as <-. apply elem_of_union in Hx as [Hx|Hx]; [| by left].
      right. apply elem_of_singleton in Hx as ->. by left.
    + injection H as <-. apply elem_of_union in Hx as [Hx|Hx]; [| by left].
      right. by apply elem_of_list_to_set in Hx.
    + destruct (eval ns v); try discriminate H. cbn [mbind result_bind] in H.
      by apply (store_all_bound ts ns ns').
    + destruct (eval ns v); try discriminate H. injection H as <-. by left.
Qed.

Lemma exec_all_bound (oracle : expr → bool) (ss : list stmt) :
  ∀ ns ns', exec_all oracle ns ss = Ok ns' →
            grows_by ns ns' (concat (bound_names <$> ss)).
Proof.
  induction ss as [|s ss IH]; intros ns ns' H x Hx.
  - injection H as <-. by left.
  - cbn [exec_all] in H.
    destruct (exec oracle ns s) as [ns1| | | |] eqn:E; try discriminate H.
    cbn [mbind result_bind] in H. csimpl. rewrite elem_of_app.
    destruct (IH _ _ H x Hx) as [H1|H1]; [| tauto].
    destruct (exec_bound oracle s _ _ E x H1); tauto.
Qed.

Lemma run_cell_bound (oracle : expr → bool) (c : cell) (ns ns' : gset string)
    (names : list string) :
  cell_binds c = Ok names → run_cell oracle ns c = Ok ns' →
  grows_by ns ns' names.
Proof.
  unfold cell_binds, run_cell. intros B H.
  destruct (parse (source c)) as [ss| | | |]; try discriminate H.
  cbn [mbind result_bind] in *. injection B as <-.
  by apply (exec_all_bound oracle).
Qed.

Lemma no_cell_binds_os :
  Forall (λ c, ∃ names, cell_binds c = Ok names ∧ "os" ∉ names)
         notebook_with_commas.
Proof.
  unfold notebook_with_commas, notebook.
  repeat (apply Forall_cons; split;
          [eexists; split; [vm_compute; reflexivity |];
           apply (bool_decide_unpack _); vm_compute; reflexivity |]).
  apply Forall_nil. done.
Qed.

Lemma exec_all_app (oracle : expr → bool) (pre post : list stmt)
    (ns : gset string) :
  exec_all oracle ns (pre ++ post)
  = (ns' ← exec_all oracle ns pre; exec_all oracle ns' post).
Proof.
  revert ns. induction pre as [|s pre IH]; intros ns; [done |].
  cbn [app exec_all]. destruct (exec oracle ns s); try done.
  cbn [mbind result_bind]. apply IH.
Qed.

(** The visualization cell completes in no session without [os]: the
    statements before its [if] bind other names, and the test of the [if]
    reads [os]. *)
Lemma visualize_not_ok (oracle : expr → bool) (ns r : gset string) :
  "os" ∉ ns → run_cell oracle ns cell_visualize ≠ Ok r.
Proof.
  intros Hos. unfold run_cell.
  destruct parse_cell_visualize as [rest ->].
  cbn [mbind result_bind]. rewrite exec_all_app.
  match goal with |- context [exec_all oracle ns ?pre] =>
    destruct (exec_all oracle ns pre) as [ns4| | | |] eqn:E;
      try discriminate end.
  cbn [mbind result_bind exec_all exec eval].
  rewrite (lookup_name_not_elem ns4 "os"); [discriminate | |].
  - intros Hx. destruct (exec_all_bound oracle _ _ _ E _ Hx) as [H|H];
      [tauto |]. revert H. apply (bool_decide_unpack _). vm_compute.
    reflexivity.
  - vm_compute. reflexivity.
Qed.

Lemma visualize_at_13 :
  notebook_with_commas !! 13%nat = Some cell_visualize.
Proof. vm_compute. reflexivity. Qed.

(** X11: cells of the notebook (the typo of the first cell repaired) run in
    any order, any number of times, from any session in which [os] is not
    bound: when all of them complete, the visualization cell (index 13) was
    not among them, and [os] is still not bound. *)
Theorem sessions_without_os (oracle : expr → bool) (order : list nat)
    (i : nat) (ns r : gset string) :
  "os" ∉ ns →
  (run_cells oracle i ns (in_order order)).2 = Ok r →
  (13%nat ∉ order) ∧ ("os" ∉ r).
Proof.
  revert i ns r.
  induction order as [|k order IH]; intros i ns r Hos H.
  - injection H as <-. split; [apply not_elem_of_nil | exact Hos].
  - unfold in_order in H. cbn [omap list_omap] in H.
    destruct (notebook_with_commas !! k) as [c|] eqn:Hk.
    + cbn [run_cells] in H.
      destruct (run_cell oracle ns c) as [ns1| | | |] eqn:E;
        try discriminate H.
      assert (Hc : c ∈ notebook_with_commas)
        by (by eapply list_elem_of_lookup_2).
      destruct (proj1 (Forall_forall _ _) no_cell_binds_os c Hc)
        as [names [B Hn]].
      assert (Hos1 : "os" ∉ ns1).
      { intros Hx.
        destruct (run_cell_bound oracle c ns ns1 names B E _ Hx); tauto. }
      destruct (IH _ _ _ Hos1 H) as [H13 Hr]. split; [| exact Hr].
      apply not_elem_of_cons. split; [| exact H13].
      intros <-. rewrite visualize_at_13 in Hk. injection Hk as <-.
      exact (visualize_not_ok oracle ns ns1 Hos E).
    + destruct (IH _ _ _ Hos H) as [H13 Hr]. split; [| exact Hr].
      apply not_elem_of_cons. split; [| exact H13].
      intros <-. rewrite visualize_at_13 in Hk. discriminate Hk.
Qed.

Lemma sessions_without_os_witness :
  (13%nat ∉ [10%nat; 11%nat])
  ∧ ("os" ∉ ({["sft"]} ∪ (list_to_set ["load_trk"]
                           ∪ (list_to_set ["load_tractogram"] ∪ ∅))
             : gset string)).
Proof.
  apply (sessions_without_os (λ _, true) [10%nat; 11%nat] 0%nat ∅).
  - apply not_elem_of_empty.
  - vm_compute. reflexivity.
Defined.

End SessionFacts.

(** ** The notebook file: reading it *)

Module NotebookFileFacts.
Import Python Notebook NotebookFile.
Open Scope string_scope.

(** X12: the notebook file is not a JSON document.  In the markdown cell
    before the visualization cell the two strings of the source, on lines
    217 and 218 of the file, have no comma between them: reading the file
    raises at line 218, whatever follows that line. *)
Theorem notebook_file_is_not_json :
  (∀ rest, read (take 218 notebook_file ++ rest) = SyntaxError 218)
  ∧ read notebook_file = SyntaxError 218
  ∧ ∃ s t, lex_lines 217 (take 2 (drop 216 notebook_file))
           = [(TString s, 217%nat); (TString t, 218%nat)].
Proof.
  split; [intros rest; vm_compute; reflexivity |].
  split; [vm_compute; reflexivity |].
  eexists. eexists. vm_compute. reflexivity.
Qed.

(** X13: with a comma added at the end of line 217 the file is a JSON
    document, and its code cells, top to bottom, are the cells of
    [notebook]: the same source lines, starting on the same lines of the
    file. *)
Theorem code_cells_of_notebook_file :
  code_cells (comma_after 217 notebook_file) = Ok notebook.
Proof. vm_compute. reflexivity. Qed.

End NotebookFileFacts.

(** ** The episode: its computation runs in any session *)

Module EpisodeFacts.
Import Python Notebook Session SessionFacts Episode.
Open Scope string_scope.

Lemma lookup_name_builtin (ns : gset string) (x : string) :
  bool_decide (x ∈ builtins) = true → lookup_name ns x = Ok ().
Proof. intros B. unfold lookup_name. by rewrite B, orb_true_r. Qed.

Ltac bound :=
  solve [ repeat first
            [ apply elem_of_union_l, elem_of_singleton; reflexivity
            | apply elem_of_union_l, elem_of_list_to_set;
              apply (bool_decide_unpack _); vm_compute; reflexivity
            | apply elem_of_union_r ] ].
Ltac run_names :=
  cbn [mbind result_bind app exec_all exec eval store_all store from_binds
       fmap list_fmap default fst snd].
Ltac read_cell c :=
  let p := fresh "p" in
  let E := fresh "E" in
  remember (parse (source c)) as p eqn:E; vm_compute in E; subst p.
Ltac look :=
  match goal with
  | |- context [lookup_name ?ns ?x] =>
      first [ rewrite (lookup_name_elem ns x) by bound
            | rewrite (lookup_name_builtin ns x) by (vm_compute; reflexivity) ]
  end.
Ltac run_all := repeat first [ progress run_names | look ].

(** X14: the blocks of the episode that load the data, estimate and save
    the response function, and fit the model run to the end in any session,
    whatever it binds and whatever the conditions evaluate to: every name a
    block reads is bound by the block or by one before it.  In particular
    [os], which the directory and file statements of lines 112 to 116 read,
    is imported on line 53. *)
Theorem computation_runs_anywhere (oracle : expr → bool) (ns : gset string) :
  ∃ r, run_cells oracle 0 ns computation = (7%nat, Ok r)
       ∧ "os" ∈ r ∧ "csd_odf" ∈ r.
Proof.
  eexists. split.
  - unfold computation. cbn [run_cells]. unfold run_cell.
    read_cell block_load. run_all.
    read_cell block_response. run_all.
    destruct (oracle _); run_all.
    all: read_cell block_print_response; run_all.
    all: read_cell block_print_ratio; run_all.
    all: read_cell block_model; run_all.
    all: read_cell block_fit; run_all.
    all: read_cell block_odf; run_all.
    all: reflexivity.
  - split; bound.
Qed.

End EpisodeFacts.

(** ** The whole notebook in any session *)

Module WholeNotebookFacts.
Import Python Notebook Session SessionFacts EpisodeFacts.
Open Scope string_scope.

Ltac is_bound :=
  solve [ repeat first
            [ assumption
            | apply elem_of_union_l, elem_of_singleton; reflexivity
            | apply elem_of_union_l, elem_of_list_to_set;
              apply (bool_decide_unpack _); vm_compute; reflexivity
            | apply elem_of_union_r ] ].
Ltac is_unbound :=
  solve [ repeat first
            [ assumption
            | apply not_elem_of_union; split;
              [ first [ apply not_elem_of_singleton; discriminate
                      | rewrite elem_of_list_to_set;
                        apply (bool_decide_unpack _); vm_compute;
                        reflexivity ] | ] ] ].
Ltac run_names :=
  cbn [mbind result_bind app exec_all exec eval store_all store from_binds
       fmap list_fmap default fst snd].
Ltac read_next :=
  match goal with
  | |- context [parse ?l] =>
      let p := fresh "p" in
      let E := fresh "E" in
      remember (parse l) as p eqn:E; vm_compute in E; subst p
  end.
Ltac look :=
  match goal with
  | |- context [lookup_name ?ns ?x] =>
      first [ rewrite (lookup_name_elem ns x) by is_bound
            | rewrite (lookup_name_builtin ns x) by (vm_compute; reflexivity) ]
  end.
Ltac run_all := repeat first [ progress run_names | look | read_next ].

(** X15: the notebook (the typo of the first cell repaired) run from the
    top in any session, whatever the conditions evaluate to: when the
    session binds [os] all fifteen cells complete, and when it does not, the
    first thirteen complete and the visualization cell raises [NameError]
    for [os].  The missing import is the only name the notebook lacks. *)
Theorem notebook_runs_iff_os (oracle : expr → bool) (ns : gset string) :
  ("os" ∈ ns →
   ∃ r, run_cells oracle 0 ns notebook_with_commas = (15%nat, Ok r))
  ∧ ("os" ∉ ns →
     run_cells oracle 0 ns notebook_with_commas = (13%nat, NameError "os")).
Proof.
  unfold notebook_with_commas, notebook. split; intros Hos; [eexists |].
  - cbn [fmap list_fmap run_cells]. unfold run_cell. run_all.
    destruct (oracle _); run_all; reflexivity.
  - cbn [fmap list_fmap run_cells]. unfold run_cell. run_all.
    rewrite (lookup_name_not_elem _ "os");
      [reflexivity | is_unbound | vm_compute; reflexivity].
Qed.

Lemma notebook_runs_iff_os_witness :
  (∃ r, run_cells (λ _, true) 0 {["os"]} notebook_with_commas
        = (15%nat, Ok r))
  ∧ run_cells (λ _, true) 0 ∅ notebook_with_commas
    = (13%nat, NameError "os").
Proof.
  split.
  - apply (proj1 (notebook_runs_iff_os (λ _, true) {["os"]})).
    by apply elem_of_singleton.
  - apply (proj2 (notebook_runs_iff_os (λ _, true) ∅)).
    apply not_elem_of_empty.
Defined.

End WholeNotebookFacts.

(** ** Sanitization, then the seed mask *)

Module PipelineFacts.
Import Python Notebook Numpy FA NumpyRun NumpyRunFacts.
Open Scope string_scope.

(** X16: the sanitization cell and then the first five lines of the seed
    cell, run from their source text in any store in which [fa_img] names
    an array: [fa_img] still names that array, now sanitized, and
    [seed_mask] names another array, the seed mask of the sanitized map. *)
Theorem sanitize_then_seed (σ : store) (l : loc) (a : ndarray3 float64) :
  names σ !! "fa_img" = Some (VArray l) →
  heap σ !! l = Some a →
  ∃ σ' l',
    (σ1 ← run σ (source cell_sanitize);
     run σ1 (source (first_lines 5 cell_seeds))) = Done σ'
    ∧ names σ' !! "fa_img" = Some (VArray l)
    ∧ names σ' !! "seed_mask" = Some (VArray l')
    ∧ l' ≠ l
    ∧ heap σ' !! l = Some (sanitize a)
    ∧ heap σ' !! l' = Some (seed_mask (sanitize a)).
Proof.
  intros Hn Hh.
  set (l' := fresh (dom (<[l := sanitize a]> (heap σ)))).
  assert (Hl : l' ≠ l).
  { intros E. apply (is_fresh (dom (<[l := sanitize a]> (heap σ)))).
    fold l'. rewrite E. apply elem_of_dom. rewrite lookup_insert_eq.
    by eexists. }
  eexists _, l'. split.
  - unfold run. rewrite parse_cell_sanitize, parse_cell_seeds_5.
    run_store Hn Hh. fold l'. run_store Hn Hh.
    rewrite !insert_insert_eq. reflexivity.
  - cbn [names heap]. repeat split.
    + by rewrite !lookup_insert_ne.
    + by rewrite lookup_insert_eq.
    + exact Hl.
    + rewrite lookup_insert_ne by done. by rewrite lookup_insert_eq.
    + by rewrite lookup_insert_eq.
Qed.

Lemma sanitize_then_seed_witness :
  ∃ σ' l',
    (σ1 ← run demo_store (source cell_sanitize);
     run σ1 (source (first_lines 5 cell_seeds))) = Done σ'
    ∧ names σ' !! "fa_img" = Some (VArray 0%nat)
    ∧ names σ' !! "seed_mask" = Some (VArray l')
    ∧ l' ≠ 0%nat
    ∧ heap σ' !! 0%nat
      = Some (sanitize [[[S754_nan; f_0_2; S754_infinity false]]])
    ∧ heap σ' !! l'
      = Some (seed_mask (sanitize [[[S754_nan; f_0_2; S754_infinity false]]])).
Proof.
  apply (sanitize_then_seed demo_store 0%nat); vm_compute; reflexivity.
Defined.

(** The response printed in the episode, read as Python reads the
    literals, is [printed_response]. *)
Lemma printed_response_literals :
  (l1 ← literal "0.00159258"; l2 ← literal "0.00033926";
   s ← literal "201.48318";
   Some {| Response.evals := (l1, l2, l2); Response.S0 := s |})
  = Some Response.printed_response.
Proof. vm_compute. reflexivity. Qed.

End PipelineFacts.
